(** * twitch.py: top-streamer pagination and the viewer map

    A shallow embedding of [src/twitch.py] and the properties of its three
    coroutines, [get_top_streamers], [get_current_viewers] and
    [get_viewer_map].

    Conventions of the embedding.
    - A Python [str] is a [string] read as a sequence of code points below
      256; [str.lower] is modelled on that range.
    - A value decoded from JSON is a [pyval]; a [dict] is an association list
      in insertion order.
    - The HTTP session is a state machine [http_get] answering one request at
      a time; a coroutine is a function of the session state that also returns
      the exchanges it made, in order.
    - The [logger] calls do nothing to the results and their texts are not
      modelled; what is modelled is that building the f-strings of the
      pagination loop can raise: an [int] of more than 4300 digits has no
      decimal text ([ValueError], the default limit of CPython 3.11), and
      [count / TWITCH_PAGE_SIZE] in the debug message has no float value
      when it rounds to 2^1024 or more ([OverflowError]). *)

From Stdlib Require Import ZArith List String Ascii Bool Lia Permutation.
From Stdlib Require Import Floats.SpecFloat.
Import ListNotations.

Local Open Scope Z_scope.
Local Open Scope string_scope.
Local Open Scope list_scope.

(** ** Python values *)

Set Warnings "-register-all".

Module Py.

(** What [response.json()] can return. *)
Inductive pyval : Type :=
| PNone
| PBool (b : bool)
| PInt (n : Z)
| PFloat (x : spec_float)
| PStr (s : string)
| PList (items : list pyval)
| PDict (entries : list (string * pyval)).

(** The exceptions the modelled code meets.  [Exception] is the one the code
    raises itself; [ClientError] stands for whatever the HTTP client or the
    JSON decoder raises. *)
Inductive exn : Type :=
| Exception (arg : pyval)
| KeyError (key : string)
| TypeError
| AttributeError (attr : string)
| ValueError
| OverflowError
| ClientError (what : string).

(** The result of running a piece of code; [NoFuel] marks a loop cut short
    by the embedding and corresponds to no Python behaviour. *)
Inductive outcome (A : Type) : Type :=
| Ret (a : A)
| Raise (e : exn)
| NoFuel.
Arguments Ret {A} a.
Arguments Raise {A} e.
Arguments NoFuel {A}.

(** Sequencing of steps that may raise. *)
Definition and_then {A B : Type} (o : outcome A) (k : A -> outcome B)
  : outcome B :=
  match o with
  | Ret a => k a
  | Raise e => Raise e
  | NoFuel => NoFuel
  end.

(** *** Dictionaries, in insertion order *)

Definition dict (V : Type) : Type := list (string * V).

Fixpoint dict_get {V : Type} (k : string) (d : dict V) : option V :=
  match d with
  | [] => None
  | (k', v) :: rest => if String.eqb k' k then Some v else dict_get k rest
  end.

(** [d[k] = v]: an existing key keeps its position. *)
Fixpoint dict_set {V : Type} (k : string) (v : V) (d : dict V) : dict V :=
  match d with
  | [] => [(k, v)]
  | (k', v') :: rest =>
      if String.eqb k' k then (k', v) :: rest
      else (k', v') :: dict_set k v rest
  end.

Definition dict_keys {V : Type} (d : dict V) : list string := map fst d.
Definition dict_values {V : Type} (d : dict V) : list V := map snd d.

(** *** Built-in operations *)

(** [bool(v)], the test of an [if]. *)
Definition truthy (v : pyval) : bool :=
  match v with
  | PNone => false
  | PBool b => b
  | PInt n => negb (Z.eqb n 0)
  | PFloat (S754_zero _) => false
  | PFloat _ => true
  | PStr s => negb (String.eqb s "")
  | PList [] => false
  | PList (_ :: _) => true
  | PDict [] => false
  | PDict (_ :: _) => true
  end.

(** [v.get(k)]: only a dict has the method. *)
Definition py_get (v : pyval) (k : string) : outcome pyval :=
  match v with
  | PDict d => match dict_get k d with
               | Some x => Ret x
               | None => Ret PNone
               end
  | _ => Raise (AttributeError "get")
  end.

(** [v[k]] for a string key [k]. *)
Definition subscript (v : pyval) (k : string) : outcome pyval :=
  match v with
  | PDict d => match dict_get k d with
               | Some x => Ret x
               | None => Raise (KeyError k)
               end
  | _ => Raise TypeError
  end.

(** [v.values()]. *)
Definition py_values (v : pyval) : outcome (list pyval) :=
  match v with
  | PDict d => Ret (dict_values d)
  | _ => Raise (AttributeError "values")
  end.

Fixpoint chars (s : string) : list pyval :=
  match s with
  | EmptyString => []
  | String c rest => PStr (String c EmptyString) :: chars rest
  end.

(** The items [for x in v] goes through. *)
Definition py_iter (v : pyval) : outcome (list pyval) :=
  match v with
  | PList items => Ret items
  | PDict d => Ret (map PStr (dict_keys d))
  | PStr s => Ret (chars s)
  | _ => Raise TypeError
  end.

(** [str.lower] on code points below 256: the ASCII capitals and the
    Latin-1 capitals U+00C0..U+00DE, U+00D7 excepted, move up by 32. *)
Definition is_upper (c : ascii) : bool :=
  let n := nat_of_ascii c in
  ((65 <=? n) && (n <=? 90)
   || (192 <=? n) && (n <=? 222) && negb (n =? 215))%nat.

Definition lower_char (c : ascii) : ascii :=
  if is_upper c then ascii_of_nat (nat_of_ascii c + 32) else c.

Fixpoint lower (s : string) : string :=
  match s with
  | EmptyString => EmptyString
  | String c rest => String (lower_char c) (lower rest)
  end.

(** *** Texts and floats *)

(** [sys.get_int_max_str_digits()]: an [int] of more digits has no decimal
    text. *)
Definition INT_MAX_STR_DIGITS : Z := 4300.

Definition int_has_text (n : Z) : bool :=
  Z.ltb (Z.abs n) (10 ^ INT_MAX_STR_DIGITS).

(** Whether [str(v)] returns: it raises [ValueError] on an [int] without
    text, also inside a list or a dict. *)
Fixpoint has_text (v : pyval) : bool :=
  match v with
  | PInt n => int_has_text n
  | PList items => forallb has_text items
  | PDict entries =>
      forallb (fun entry => match entry with (_, x) => has_text x end) entries
  | _ => true
  end.

(** A replacement field [{v}] of an f-string; the text itself is not
    modelled. *)
Definition format_field (v : pyval) : outcome unit :=
  if has_text v then Ret tt else Raise ValueError.

(** [a / b] on two [int]s is the float nearest to the quotient, and raises
    [OverflowError] when that is 2^1024 or more in magnitude, that is from
    the midpoint 2^1024 - 2^970 on. *)
Definition FLOAT_OVERFLOW : Z := 2 ^ 1024 - 2 ^ 970.

Definition true_divide_overflows (a b : Z) : bool :=
  Z.leb (FLOAT_OVERFLOW * Z.abs b) (Z.abs a).

End Py.
Import Py.

(** ** The HTTP session *)

Module Http.

(** The address of a request.  The streams URL is the f-string
    [https://api.twitch.tv/helix/streams?first={batch}&after={cursor}], kept
    as its two interpolated values because [cursor] is whatever the previous
    response held; the chatters URL is an ordinary string. *)
Inductive url : Type :=
| Helix_streams (first : Z) (after : pyval)
| Plain (address : string).

Record request : Type := mk_request {
  rq_url : url;
  rq_headers : list (string * string)
}.

(** What [session.get(...)] followed by [response.json()] gives: the decoded
    body, or the exception one of the two raised. *)
Inductive reply : Type :=
| Body (data : pyval)
| Failed (e : exn).

(** One exchange with the server, and the sequence a run made. *)
Definition exchange : Type := (request * reply)%type.
Definition trace : Type := list exchange.

(** A computation over a state [S] that may raise and records its
    exchanges. *)
Definition M (S A : Type) : Type := S -> outcome A * S * trace.

Definition ret {S A : Type} (a : A) : M S A := fun s => (Ret a, s, []).

Definition raise {S A : Type} (e : exn) : M S A := fun s => (Raise e, s, []).

Definition out_of_fuel {S A : Type} : M S A := fun s => (NoFuel, s, []).

Definition bind {S A B : Type} (m : M S A) (f : A -> M S B) : M S B :=
  fun s =>
    match m s with
    | (Ret a, s', t) => let '(o, s'', t') := f a s' in (o, s'', t ++ t')
    | (Raise e, s', t) => (Raise e, s', t)
    | (NoFuel, s', t) => (NoFuel, s', t)
    end.

(** A pure step that may raise. *)
Definition lift {S A : Type} (o : outcome A) : M S A := fun s => (o, s, []).

(** [for x in xs: f(x)], stopping at the first exception. *)
Fixpoint map_outcome {A B : Type} (f : A -> outcome B) (xs : list A)
  : outcome (list B) :=
  match xs with
  | [] => Ret []
  | x :: rest =>
      and_then (f x) (fun y =>
      and_then (map_outcome f rest) (fun ys => Ret (y :: ys)))
  end.

End Http.
Import Http.

(** ** [asyncio.gather] *)

Module Asyncio.

(** [await asyncio.gather] of the tasks, with its [return_exceptions] flag,
    on one event loop.
    The tasks interleave only at their awaits; [order] lists the positions of
    the tasks in the order in which they get to run to their end, a
    permutation of the positions when every task runs once.  A task is run
    here when it completes, so the trace lists the exchanges in the order in
    which the replies come in; it does not tell the order in which the
    requests go out (the event loop starts the tasks, and so sends the
    requests, in the order of the list).  The result pairs each position
    with what its task gave, in the order of completion (Python sorts it by
    position).  Without [return_exceptions] the first exception is raised to
    the awaiting caller. *)
Fixpoint gather {S A : Type} (return_exceptions : bool) (tasks : list (M S A))
    (order : list nat) : M S (list (nat * outcome A)) :=
  match order with
  | [] => ret []
  | i :: rest =>
      match nth_error tasks i with
      | None => gather return_exceptions tasks rest
      | Some task =>
          fun s =>
            let '(o, s', t) := task s in
            match o, return_exceptions with
            | Raise e, false => (Raise e, s', t)
            | NoFuel, _ => (NoFuel, s', t)
            | _, _ =>
                let '(r, s'', t') := gather return_exceptions tasks rest s' in
                (match r with
                 | Ret done => Ret ((i, o) :: done)
                 | Raise e => Raise e
                 | NoFuel => NoFuel
                 end, s'', t ++ t')
            end
      end
  end.

End Asyncio.
Import Asyncio.

Declare Scope py_scope.
Delimit Scope py_scope with py.
Notation "x <- m ;; k" := (bind m (fun x => k))
  (at level 61, m at next level, right associativity) : py_scope.
Notation "' pat <- m ;; k" := (bind m (fun x => match x with pat => k end))
  (at level 61, pat pattern, m at next level, right associativity) : py_scope.
Local Open Scope py_scope.

Declare Scope outcome_scope.
Delimit Scope outcome_scope with out.
Notation "x <- m ;; k" := (and_then m (fun x => k))
  (at level 61, m at next level, right associativity) : outcome_scope.

(** ** The module [twitch] *)

Module Twitch.

Definition TWITCH_PAGE_SIZE : Z := 100.

(** The credentials: [credentials['client-id']] and
    [credentials['access-token']]. *)
Record credentials : Type := mk_credentials {
  client_id : string;
  access_token : string
}.

Section WithSession.

(** The session: its state and how it answers a request. *)
Variable St : Type.
Variable http_get : request -> St -> reply * St.

(** [async with session.get(url, headers=...) as r: data = await r.json()] *)
Definition session_get (rq : request) : M St pyval :=
  fun s =>
    let '(rp, s') := http_get rq s in
    match rp with
    | Body data => (Ret data, s', [(rq, rp)])
    | Failed e => (Raise e, s', [(rq, rp)])
    end.

(** [element['user_login'] for element in rows] *)
Definition user_logins (rows : pyval) : outcome (list pyval) :=
  (elements <- py_iter rows ;;
   map_outcome (fun element => subscript element "user_login") elements)%out.

(** What the loop does with a decoded body (lines 46 to 51): the new cursor
    and the logins to append. *)
Definition read_page (data : pyval) : outcome (pyval * list pyval) :=
  (msg <- py_get data "message" ;;
   if truthy msg then Raise (Exception msg)
   else
     pagination <- subscript data "pagination" ;;
     cursor <- subscript pagination "cursor" ;;
     rows <- subscript data "data" ;;
     logins <- user_logins rows ;;
     Ret (cursor, logins))%out.

(** Line 37, the f-string of the URL: [{batch}], then [{cursor}]. *)
Definition streams_url (batch : Z) (cursor : pyval) : outcome url :=
  (_ <- format_field (PInt batch) ;;
   _ <- format_field cursor ;;
   Ret (Helix_streams batch cursor))%out.

(** Line 40, the f-string handed to [logger.debug]: [{batch}], then
    [{math.ceil(count / TWITCH_PAGE_SIZE)}], whose value is below 2^1024 and
    has a text. *)
Definition debug_message (batch count : Z) : outcome unit :=
  (_ <- format_field (PInt batch) ;;
   if true_divide_overflows count TWITCH_PAGE_SIZE then Raise OverflowError
   else Ret tt)%out.

(** [while count != 0: ...], with [cursor] and [result] as loop state. *)
Fixpoint fetch_loop (fuel : nat) (headers : list (string * string))
    (count : Z) (cursor : pyval) (result : list pyval) : M St (list pyval) :=
  if Z.eqb count 0 then ret result
  else
    match fuel with
    | O => out_of_fuel
    | S fuel' =>
        let batch := Z.min count TWITCH_PAGE_SIZE in
        url <- lift (streams_url batch cursor) ;;
        let count := count - batch in
        _ <- lift (debug_message batch count) ;;
        data <- session_get (mk_request url headers) ;;
        ' (cursor, logins) <- lift (read_page data) ;;
        fetch_loop fuel' headers count cursor (result ++ logins)
    end.

Definition get_top_streamers (creds : credentials) (count : Z)
  : M St (list pyval) :=
  let headers := [("Client-ID", client_id creds);
                  ("Authorization", ("Bearer " ++ access_token creds)%string)] in
  fetch_loop (Z.to_nat (Z.abs count)) headers count (PStr "") [].

(** [[viewer for group in groups for viewer in group]] *)
Definition flatten (groups : list pyval) : outcome (list pyval) :=
  (viewers <- map_outcome py_iter groups ;; Ret (List.concat viewers))%out.

Definition chatters_url (channel : string) : string :=
  ("http://tmi.twitch.tv/group/user/" ++ lower channel ++ "/chatters")%string.

Definition get_current_viewers (channel : string) : M St (list pyval) :=
  data <- session_get (mk_request (Plain (chatters_url channel)) []) ;;
  chatters <- lift (subscript data "chatters") ;;
  groups <- lift (py_values chatters) ;;
  viewers <- lift (flatten groups) ;;
  ret viewers.

(** [data[streamer] = await get_current_viewers(session, streamer)]: the
    tasks share the session and the dict [data] of the enclosing call. *)
Definition add_viewers_task (streamer : string)
  : M (St * dict (list pyval)) unit :=
  fun '(s, data) =>
    match get_current_viewers streamer s with
    | (Ret viewers, s', t) => (Ret tt, (s', dict_set streamer viewers data), t)
    | (Raise e, s', t) => (Raise e, (s', data), t)
    | (NoFuel, s', t) => (NoFuel, (s', data), t)
    end.

(** [order] is the order in which the event loop completes the fetches; the
    trace follows it (see [gather]). *)
Definition get_viewer_map (order : list nat) (streamers : list string)
  : M St (dict (list pyval)) :=
  fun s =>
    match gather true (map add_viewers_task streamers) order (s, []) with
    | (Ret _, (s', data), t) => (Ret data, s', t)
    | (Raise e, (s', _), t) => (Raise e, s', t)
    | (NoFuel, (s', _), t) => (NoFuel, s', t)
    end.

(** What each fetch of a run of [get_viewer_map] gave, with the position of
    its channel in [streamers], in the order of completion. *)
Fixpoint viewer_fetches (order : list nat) (streamers : list string) (s : St)
  : list (nat * outcome (list pyval)) :=
  match order with
  | [] => []
  | i :: rest =>
      match nth_error streamers i with
      | None => viewer_fetches rest streamers s
      | Some channel =>
          let '(o, s', _) := get_current_viewers channel s in
          (i, o) :: viewer_fetches rest streamers s'
      end
  end.

End WithSession.

End Twitch.
Import Twitch.

Arguments session_get {St} http_get rq _.
Arguments fetch_loop {St} http_get fuel headers count cursor result _.
Arguments get_top_streamers {St} http_get creds count _.
Arguments get_current_viewers {St} http_get channel _.
Arguments add_viewers_task {St} http_get streamer _.
Arguments get_viewer_map {St} http_get order streamers _.
Arguments viewer_fetches {St} http_get order streamers s.

(** ** The vocabulary of the properties *)

Module Shape.

(** The success body of the streams endpoint:
    [{ data: [ { user_login: string, ... }, ... ], pagination: { cursor: string } }],
    with no [message] field. *)
Definition is_row (v : pyval) : bool :=
  match v with
  | PDict d => match dict_get "user_login" d with
               | Some (PStr _) => true
               | _ => false
               end
  | _ => false
  end.

Definition has_cursor (v : pyval) : bool :=
  match v with
  | PDict p => match dict_get "cursor" p with
               | Some (PStr _) => true
               | _ => false
               end
  | _ => false
  end.

Definition well_formed (data : pyval) : bool :=
  match data with
  | PDict d =>
      match dict_get "message" d, dict_get "data" d, dict_get "pagination" d with
      | None, Some (PList rows), Some pagination =>
          forallb is_row rows && has_cursor pagination
      | _, _, _ => false
      end
  | _ => false
  end.

(** The items of a body. *)
Definition rows_of (data : pyval) : list pyval :=
  match data with
  | PDict d => match dict_get "data" d with
               | Some (PList rows) => rows
               | _ => []
               end
  | _ => []
  end.

(** The [first] and [after] query parameters of a request. *)
Definition requested (rq : request) : option Z :=
  match rq_url rq with
  | Helix_streams first _ => Some first
  | Plain _ => None
  end.

Definition after_of (rq : request) : option pyval :=
  match rq_url rq with
  | Helix_streams _ after => Some after
  | Plain _ => None
  end.

(** [pagination.cursor] of a reply. *)
Definition page_cursor (rp : reply) : outcome pyval :=
  match rp with
  | Body data =>
      (pagination <- subscript data "pagination" ;;
       subscript pagination "cursor")%out
  | Failed e => Raise e
  end.

(** The [message] field of a reply, when it has one. *)
Definition message_of (rp : reply) : option pyval :=
  match rp with
  | Body (PDict d) => dict_get "message" d
  | _ => None
  end.

(** Reading [pagination.cursor] and the logins of a body, with no look at
    [message]. *)
Definition read_fields (data : pyval) : outcome (pyval * list pyval) :=
  (pagination <- subscript data "pagination" ;;
   cursor <- subscript pagination "cursor" ;;
   rows <- subscript data "data" ;;
   logins <- user_logins rows ;;
   Ret (cursor, logins))%out.

(** An exchange answered with a success body. *)
Definition answered_well (e : exchange) : Prop :=
  match snd e with
  | Body data => well_formed data = true
  | Failed _ => False
  end.

(** ... holding at most, or exactly, the number of items asked for. *)
Definition items_of (e : exchange) : Z :=
  match snd e with
  | Body data => Z.of_nat (List.length (rows_of data))
  | Failed _ => 0
  end.

Definition at_most_requested (e : exchange) : Prop :=
  answered_well e /\ exists first, requested (fst e) = Some first /\ items_of e <= first.

Definition exactly_requested (e : exchange) : Prop :=
  answered_well e /\ requested (fst e) = Some (items_of e).

(** The batch sizes of [n] requests: each asks for [min(remaining, 100)] and
    takes that much off [remaining]. *)
Fixpoint batch_sizes (n : nat) (remaining : Z) : list Z :=
  match n with
  | O => []
  | S n' =>
      let batch := Z.min remaining 100 in
      batch :: batch_sizes n' (remaining - batch)
  end.

(** [ceil(count / 100)] for a non-negative [count]. *)
Definition pages (count : Z) : nat := Z.to_nat ((count + 99) / 100).

Definition expected_batches (count : Z) : list Z := batch_sizes (pages count) count.

(** The dict [data] once a fetch has completed: a fetch that returned stores
    its viewers under the channel of its task, a fetch that raised stores
    nothing. *)
Definition stored (streamers : list string) (data : dict (list pyval))
    (fetch : nat * outcome (list pyval)) : dict (list pyval) :=
  match fetch with
  | (i, Ret viewers) =>
      match nth_error streamers i with
      | Some channel => dict_set channel viewers data
      | None => data
      end
  | _ => data
  end.

(** What a turn of the loop does before its request, lines 36 to 40. *)
Definition before_request (count : Z) (cursor : pyval) : outcome unit :=
  let batch := Z.min count TWITCH_PAGE_SIZE in
  (_ <- streams_url batch cursor ;;
   debug_message batch (count - batch))%out.

(** The least non-negative [count] whose debug message overflows:
    [(count - 100) / 100] rounds to 2^1024 from there on. *)
Definition COUNT_LIMIT : Z :=
  FLOAT_OVERFLOW * TWITCH_PAGE_SIZE + TWITCH_PAGE_SIZE.

(** The [user_login] of a row and the logins of a body, read off the JSON
    directly. *)
Definition login_of (row : pyval) : pyval :=
  match row with
  | PDict fields => match dict_get "user_login" fields with
                    | Some login => login
                    | None => PNone
                    end
  | _ => PNone
  end.

Definition body_logins (rp : reply) : list pyval :=
  match rp with
  | Body (PDict d) => match dict_get "data" d with
                      | Some (PList rows) => map login_of rows
                      | _ => []
                      end
  | _ => []
  end.

(** A streamer identifier is a string. *)
Definition is_identifier (v : pyval) : bool :=
  match v with
  | PStr _ => true
  | _ => false
  end.

(** [needle in haystack]. *)
Definition contains (haystack needle : string) : Prop :=
  exists before after, haystack = (before ++ needle ++ after)%string.

End Shape.
Import Shape.

(** ** Sessions to run the code on *)

Module Fake.

Definition streamer_row (login : string) : pyval :=
  PDict [("user_login", PStr login); ("viewer_count", PInt 7)].

(** The cursor handed out with page number [page]. *)
Definition cursor_of (page : nat) : pyval :=
  PStr (String (ascii_of_nat (97 + page)) EmptyString).

Definition streams_page (rows : nat) (page : nat) : pyval :=
  PDict [("data", PList (repeat (streamer_row "somebody") rows));
         ("pagination", PDict [("cursor", cursor_of page)])].

(** A streams endpoint that always fills the batch; its state counts the
    pages served. *)
Definition full_pages (rq : request) (page : nat) : reply * nat :=
  match rq_url rq with
  | Helix_streams first _ =>
      (Body (streams_page (Z.to_nat first) (S page)), S page)
  | Plain _ => (Failed (ClientError "not found"), page)
  end.

(** A streams endpoint that serves at most 30 rows a page. *)
Definition short_pages (rq : request) (page : nat) : reply * nat :=
  match rq_url rq with
  | Helix_streams first _ =>
      (Body (streams_page (Nat.min 30 (Z.to_nat first)) (S page)), S page)
  | Plain _ => (Failed (ClientError "not found"), page)
  end.

(** A streams endpoint whose second answer is an error body. *)
Definition invalid_token : pyval := PDict [("message", PStr "invalid token")].

Definition second_page_fails (rq : request) (page : nat) : reply * nat :=
  match page with
  | 1%nat => (Body invalid_token, S page)
  | _ => full_pages rq page
  end.

(** A streams endpoint whose answers carry an empty [message]. *)
Definition empty_message_page : pyval :=
  PDict [("message", PStr "");
         ("data", PList [streamer_row "a"; streamer_row "b"]);
         ("pagination", PDict [("cursor", PStr "next")])].

Definition empty_message (rq : request) (s : unit) : reply * unit :=
  (Body empty_message_page, s).

(** A chatters endpoint: [ch1] has three chatters, [channelx] one, any other
    channel fails. *)
Definition chatters_body : pyval :=
  PDict [("chatter_count", PInt 3);
         ("chatters", PDict [("viewers", PList [PStr "a"; PStr "b"]);
                             ("moderators", PList [PStr "c"])])].

Definition chatters (rq : request) (s : unit) : reply * unit :=
  match rq_url rq with
  | Plain "http://tmi.twitch.tv/group/user/ch1/chatters" =>
      (Body chatters_body, s)
  | Plain "http://tmi.twitch.tv/group/user/channelx/chatters" =>
      (Body (PDict [("chatters", PDict [("viewers", PList [PStr "z"])])]), s)
  | _ => (Failed (ClientError "connection reset"), s)
  end.

(** A chatters endpoint that answers every request with the same body. *)
Definition always (data : pyval) (rq : request) (s : unit) : reply * unit :=
  (Body data, s).

(** A chatters endpoint that fails its first request only. *)
Definition first_fails (rq : request) (served : nat) : reply * nat :=
  match served with
  | O => (Failed (ClientError "timeout"), S served)
  | _ => (Body chatters_body, S served)
  end.

Definition creds : credentials := mk_credentials "id" "token".

(** The [n]-th exchange of a trace. *)
Definition nth_exchange (n : nat) (t : trace) : exchange :=
  nth n t (mk_request (Plain "") [], Failed TypeError).

(** Runs used as instances below. *)
Definition full_run := get_top_streamers full_pages creds 250 0%nat.
Definition short_run := get_top_streamers short_pages creds 250 0%nat.
Definition failing_run := get_top_streamers second_page_fails creds 250 0%nat.
Definition empty_message_run := get_top_streamers empty_message creds 2 tt.

End Fake.

(** ** Further vocabulary: what a run read, stored and asked *)

Module Run.

(** The exception a reply ends the pagination with, if any: the one the
    session raised, or the one reading the body raises. *)
Definition reply_error (rp : reply) : option exn :=
  match rp with
  | Failed e => Some e
  | Body data =>
      match read_page data with
      | Raise e => Some e
      | _ => None
      end
  end.

(** The [headers] dict of [get_top_streamers]. *)
Definition auth_headers (creds : credentials) : list (string * string) :=
  [("Client-ID", client_id creds);
   ("Authorization", ("Bearer " ++ access_token creds)%string)].

Definition is_dict (v : pyval) : bool :=
  match v with
  | PDict _ => true
  | _ => false
  end.

(** What a [for] can go through. *)
Definition is_iterable (v : pyval) : bool :=
  match v with
  | PList _ | PDict _ | PStr _ => true
  | _ => false
  end.

(** The channels of the tasks at the positions of [order]. *)
Definition picked (streamers : list string) (order : list nat) : list string :=
  flat_map (fun i => match nth_error streamers i with
                     | Some channel => [channel]
                     | None => []
                     end) order.

(** The entry a fetch adds to the dict, if it returned. *)
Definition entry_of (streamers : list string)
    (fetch : nat * outcome (list pyval)) : list (string * list pyval) :=
  match fetch with
  | (i, Ret viewers) =>
      match nth_error streamers i with
      | Some channel => [(channel, viewers)]
      | None => []
      end
  | _ => []
  end.

(** A streams endpoint at the end of the listing: rows, and a [pagination]
    without cursor. *)
Definition last_page : pyval :=
  PDict [("data", PList [Fake.streamer_row "a"]); ("pagination", PDict [])].

Definition end_of_listing (rq : request) (s : unit) : reply * unit :=
  (Body last_page, s).

(** A chatters endpoint whose [n]-th answer has the one viewer [n]. *)
Definition numbered (rq : request) (served : nat) : reply * nat :=
  (Body (PDict [("chatters",
                 PDict [("viewers", PList [PInt (Z.of_nat served)])])]),
   S served).

(** A streams endpoint whose pages overlap by one row: page [p] starts at
    row [99 * p], and row [k] has the one-character login of code [k]. *)
Definition numbered_login (k : nat) : pyval :=
  PStr (String (ascii_of_nat k) EmptyString).

Definition numbered_row (k : nat) : pyval :=
  PDict [("id", PInt (Z.of_nat k)); ("user_login", numbered_login k)].

Definition border_pages (rq : request) (page : nat) : reply * nat :=
  match rq_url rq with
  | Helix_streams first _ =>
      (Body (PDict [("data",
                     PList (map numbered_row
                              (seq (99 * page) (Z.to_nat first))));
                    ("pagination", PDict [("cursor", Fake.cursor_of page)])]),
       S page)
  | Plain _ => (Failed (ClientError "not found"), page)
  end.

Definition border_run := get_top_streamers border_pages Fake.creds 102 0%nat.

Definition negative_run := get_top_streamers Fake.full_pages Fake.creds (-5) 0%nat.
Definition end_of_listing_run := get_top_streamers end_of_listing Fake.creds 1 tt.

End Run.
Import Run.

(** * Properties *)

(** ** Steps that may raise *)

Lemma map_outcome_fuel {A B : Type} (f : A -> outcome B) (xs : list A) :
  (forall x, f x <> NoFuel) -> map_outcome f xs <> NoFuel.
Proof.
  intros Hf. induction xs as [|x rest IH]; simpl; [discriminate|].
  specialize (Hf x). destruct (f x); simpl; try congruence.
  destruct (map_outcome f rest); simpl; congruence.
Qed.

Lemma subscript_fuel (v : pyval) (k : string) : subscript v k <> NoFuel.
Proof.
  destruct v; simpl; try discriminate.
  destruct (dict_get k entries); discriminate.
Qed.

Lemma py_iter_fuel (v : pyval) : py_iter v <> NoFuel.
Proof. destruct v; simpl; discriminate. Qed.

Lemma and_then_fuel {A B : Type} (o : outcome A) (k : A -> outcome B) :
  o <> NoFuel -> (forall a, k a <> NoFuel) -> and_then o k <> NoFuel.
Proof. intros Ho Hk. destruct o; simpl; auto; discriminate. Qed.

Lemma user_logins_fuel (rows : pyval) : user_logins rows <> NoFuel.
Proof.
  unfold user_logins. apply and_then_fuel; [apply py_iter_fuel|].
  intros elements. apply map_outcome_fuel. intros x. apply subscript_fuel.
Qed.

Lemma read_page_fuel (data : pyval) : read_page data <> NoFuel.
Proof.
  unfold read_page. apply and_then_fuel.
  - destruct data; simpl; try discriminate.
    destruct (dict_get "message" entries); discriminate.
  - intros msg. destruct (truthy msg); [discriminate|].
    repeat (apply and_then_fuel; [first [apply subscript_fuel | apply user_logins_fuel]|intros ?]).
    discriminate.
Qed.

Lemma flatten_fuel (groups : list pyval) : flatten groups <> NoFuel.
Proof.
  unfold flatten. apply and_then_fuel; [|discriminate].
  apply map_outcome_fuel, py_iter_fuel.
Qed.

Lemma map_outcome_length {A B : Type} (f : A -> outcome B) (xs : list A) ys :
  map_outcome f xs = Ret ys -> List.length ys = List.length xs.
Proof.
  revert ys. induction xs as [|x rest IH]; simpl; intros ys H.
  - injection H as <-. reflexivity.
  - destruct (f x); simpl in H; try discriminate.
    destruct (map_outcome f rest); simpl in H; try discriminate.
    injection H as <-. simpl. f_equal. apply IH. reflexivity.
Qed.

(** ** A success body is read without an exception *)

Lemma rows_have_logins (rows : list pyval) :
  forallb is_row rows = true ->
  exists logins,
    map_outcome (fun element => subscript element "user_login") rows = Ret logins.
Proof.
  induction rows as [|r rest IH]; simpl; intros H; [eauto|].
  apply andb_prop in H as [Hr Hrest]. destruct (IH Hrest) as [logins ->].
  destruct r; simpl in Hr; try discriminate. simpl.
  destruct (dict_get "user_login" entries) as [v|]; [|discriminate].
  simpl. eauto.
Qed.

Lemma read_well_formed (data : pyval) :
  well_formed data = true ->
  exists cursor logins,
    read_page data = Ret (cursor, logins)
    /\ List.length logins = List.length (rows_of data).
Proof.
  destruct data as [| | | | |?|d]; simpl; try discriminate.
  unfold read_page, user_logins; simpl.
  destruct (dict_get "message" d); [discriminate|].
  destruct (dict_get "data" d) as [[| | | | |rows|?]|]; try discriminate.
  destruct (dict_get "pagination" d) as [pagination|]; [|discriminate].
  intros H. apply andb_prop in H as [Hrows Hcur].
  destruct pagination as [| | | | |?|p]; simpl in Hcur; try discriminate.
  simpl. destruct (dict_get "cursor" p) as [c|]; [|discriminate].
  simpl. destruct (rows_have_logins rows Hrows) as [logins Hl].
  rewrite Hl. simpl. exists c, logins. split; [reflexivity|].
  eapply map_outcome_length, Hl.
Qed.

(** ** Before the request *)

Lemma hundred_has_text : 100 < 10 ^ INT_MAX_STR_DIGITS.
Proof. reflexivity. Qed.

Lemma float_overflow_positive : 0 < FLOAT_OVERFLOW.
Proof. reflexivity. Qed.

Lemma format_field_fuel v : format_field v <> NoFuel.
Proof. unfold format_field. destruct (has_text v); discriminate. Qed.

Lemma format_field_raises v e : format_field v = Raise e -> e = ValueError.
Proof. unfold format_field. destruct (has_text v); congruence. Qed.

Lemma before_request_fuel count cursor : before_request count cursor <> NoFuel.
Proof.
  unfold before_request, streams_url, debug_message, format_field.
  destruct (has_text (PInt _)); simpl; [|discriminate].
  destruct (has_text cursor); simpl; [|discriminate].
  destruct (true_divide_overflows _ _); discriminate.
Qed.

Lemma before_request_raises count cursor e :
  before_request count cursor = Raise e -> e = ValueError \/ e = OverflowError.
Proof.
  unfold before_request, streams_url, debug_message, format_field.
  destruct (has_text (PInt _)); simpl; [|left; congruence].
  destruct (has_text cursor); simpl; [|left; congruence].
  destruct (true_divide_overflows _ _); [right; congruence|discriminate].
Qed.

(** A turn within the limits makes its request. *)
Lemma before_request_made count cursor :
  - 10 ^ INT_MAX_STR_DIGITS < count < COUNT_LIMIT ->
  has_text cursor = true ->
  before_request count cursor = Ret tt.
Proof.
  intros Hcount Hcursor.
  pose proof hundred_has_text as Hhundred.
  pose proof float_overflow_positive as Hfloat.
  unfold before_request, streams_url, debug_message, format_field.
  cbn [has_text]. unfold COUNT_LIMIT, TWITCH_PAGE_SIZE in *.
  assert (Hbatch : int_has_text (Z.min count 100) = true)
    by (apply Z.ltb_lt; lia).
  rewrite Hbatch. simpl. rewrite Hcursor. simpl.
  assert (Hdiv : true_divide_overflows (count - Z.min count 100) 100 = false)
    by (apply Z.leb_gt; lia).
  now rewrite Hdiv.
Qed.

(** From [COUNT_LIMIT] on the debug message of the first turn overflows. *)
Lemma before_request_overflows count cursor :
  COUNT_LIMIT <= count ->
  has_text cursor = true ->
  before_request count cursor = Raise OverflowError.
Proof.
  intros Hcount Hcursor.
  pose proof hundred_has_text as Hhundred.
  pose proof float_overflow_positive as Hfloat.
  unfold before_request, streams_url, debug_message, format_field.
  cbn [has_text]. unfold COUNT_LIMIT, TWITCH_PAGE_SIZE in *.
  assert (Hbatch : int_has_text (Z.min count 100) = true)
    by (apply Z.ltb_lt; lia).
  rewrite Hbatch. simpl. rewrite Hcursor. simpl.
  assert (Hdiv : true_divide_overflows (count - Z.min count 100) 100 = true)
    by (apply Z.leb_le; lia).
  now rewrite Hdiv.
Qed.

(** A negative [count] of more than 4300 digits has no text for the URL. *)
Lemma before_request_no_text count cursor :
  count <= - 10 ^ INT_MAX_STR_DIGITS ->
  before_request count cursor = Raise ValueError.
Proof.
  intros Hcount. pose proof hundred_has_text as Hhundred.
  unfold before_request, streams_url, format_field.
  cbn [has_text]. unfold TWITCH_PAGE_SIZE.
  assert (Hbatch : int_has_text (Z.min count 100) = false)
    by (apply Z.ltb_ge; lia).
  now rewrite Hbatch.
Qed.

(** ** The pagination loop *)

Section Pagination.

Context {St : Type} (http_get : request -> St -> reply * St).

(** One turn of the loop. *)
Lemma fetch_loop_step fuel headers count cursor result s :
  count <> 0 ->
  let batch := Z.min count TWITCH_PAGE_SIZE in
  let rq := mk_request (Helix_streams batch cursor) headers in
  fetch_loop http_get (S fuel) headers count cursor result s =
  match before_request count cursor with
  | Raise e => (Raise e, s, [])
  | NoFuel => (NoFuel, s, [])
  | Ret _ =>
      match http_get rq s with
      | (Failed e, s1) => (Raise e, s1, [(rq, Failed e)])
      | (Body data, s1) =>
          match read_page data with
          | Ret (c, logins) =>
              let '(o, s2, t) :=
                fetch_loop http_get fuel headers (count - batch) c
                  (result ++ logins) s1 in
              (o, s2, (rq, Body data) :: t)
          | Raise e => (Raise e, s1, [(rq, Body data)])
          | NoFuel => (NoFuel, s1, [(rq, Body data)])
          end
      end
  end.
Proof.
  intros Hc. cbv zeta. simpl.
  destruct (Z.eqb_spec count 0) as [|_]; [contradiction|].
  unfold before_request, streams_url, debug_message, bind, lift.
  destruct (format_field (PInt (Z.min count TWITCH_PAGE_SIZE))) as [[]|e|];
    simpl; try reflexivity.
  destruct (format_field cursor) as [[]|e|]; simpl; try reflexivity.
  destruct (true_divide_overflows _ _); simpl; [reflexivity|].
  unfold session_get.
  destruct (http_get _ s) as [[data|e] s1]; [|reflexivity].
  destruct (read_page data) as [[c logins]|e|]; try reflexivity.
  destruct (fetch_loop http_get fuel headers _ c _ s1) as [[o s2] t].
  reflexivity.
Qed.

Lemma fetch_loop_done fuel headers cursor result s :
  fetch_loop http_get fuel headers 0 cursor result s = (Ret result, s, []).
Proof. destruct fuel; reflexivity. Qed.

(** The loop ends: every turn brings [count] closer to zero, a negative
    [count] in one turn. *)
Lemma fetch_loop_fuel fuel : forall headers count cursor result s,
  (Z.to_nat (Z.abs count) <= fuel)%nat ->
  fst (fst (fetch_loop http_get fuel headers count cursor result s)) <> NoFuel.
Proof.
  induction fuel as [|fuel IH]; intros headers count cursor result s Hfuel.
  - assert (count = 0) as -> by lia. simpl. discriminate.
  - destruct (Z.eq_dec count 0) as [->|Hc].
    + rewrite fetch_loop_done. simpl. discriminate.
    + rewrite fetch_loop_step by assumption. cbv zeta.
      pose proof (before_request_fuel count cursor) as Hbefore.
      destruct (before_request count cursor) as [[]|e|];
        [|simpl; discriminate|contradiction].
      destruct (http_get _ s) as [[data|e] s1]; [|simpl; discriminate].
      pose proof (read_page_fuel data) as Hread.
      destruct (read_page data) as [[c logins]|e|];
        [|simpl; discriminate|contradiction].
      specialize (IH headers (count - Z.min count TWITCH_PAGE_SIZE) c
                    (result ++ logins) s1).
      destruct (fetch_loop http_get fuel headers _ c _ s1) as [[o s2] t].
      simpl in *. apply IH. unfold TWITCH_PAGE_SIZE. lia.
Qed.

(** The rows of a success body give their [user_login] values, which are
    strings. *)
Lemma rows_login_values (rows : list pyval) :
  forallb is_row rows = true ->
  map_outcome (fun element => subscript element "user_login") rows
  = Ret (map login_of rows)
  /\ Forall (fun login => is_identifier login = true) (map login_of rows).
Proof.
  induction rows as [|r rest IH]; simpl; intros H; [split; [reflexivity|constructor]|].
  apply andb_prop in H as [Hr Hrest]. destruct (IH Hrest) as [-> Hid].
  destruct r; simpl in Hr; try discriminate. simpl.
  destruct (dict_get "user_login" entries) as [[]|]; try discriminate.
  simpl. split; [reflexivity|]. constructor; [reflexivity|exact Hid].
Qed.

Lemma read_well_formed_page (data : pyval) :
  well_formed data = true ->
  exists cursor,
    read_page data = Ret (cursor, body_logins (Body data))
    /\ has_text cursor = true
    /\ Forall (fun login => is_identifier login = true)
              (body_logins (Body data))
    /\ List.length (body_logins (Body data)) = List.length (rows_of data).
Proof.
  destruct data as [| | | | |?|d]; simpl; try discriminate.
  unfold read_page, user_logins; simpl.
  destruct (dict_get "message" d); [discriminate|].
  destruct (dict_get "data" d) as [[| | | | |rows|?]|]; try discriminate.
  destruct (dict_get "pagination" d) as [pagination|]; [|discriminate].
  intros H. apply andb_prop in H as [Hrows Hcur].
  destruct pagination as [| | | | |?|p]; simpl in Hcur; try discriminate.
  simpl. destruct (dict_get "cursor" p) as [[]|]; try discriminate.
  simpl. destruct (rows_login_values rows Hrows) as [Hl Hid].
  rewrite Hl. simpl. eexists. split; [reflexivity|]. split; [reflexivity|].
  split; [exact Hid|apply length_map].
Qed.

(** Within the limits and with success bodies no longer than asked, the
    loop adds to [result] the logins of the pages, at most [count] of them;
    with bodies as long as asked, exactly [count]. *)
Lemma fetch_loop_length fuel : forall headers count cursor result s out s' t,
  0 <= count < COUNT_LIMIT ->
  has_text cursor = true ->
  (Z.to_nat count <= fuel)%nat ->
  fetch_loop http_get fuel headers count cursor result s = (out, s', t) ->
  (Forall at_most_requested t ->
   exists more,
     out = Ret (result ++ more)
     /\ more = List.concat (map (fun ex => body_logins (snd ex)) t)
     /\ Forall (fun login => is_identifier login = true) more
     /\ Z.of_nat (List.length more) <= count)
  /\ (Forall exactly_requested t ->
      exists more,
        out = Ret (result ++ more)
        /\ more = List.concat (map (fun ex => body_logins (snd ex)) t)
        /\ Forall (fun login => is_identifier login = true) more
        /\ Z.of_nat (List.length more) = count).
Proof.
  assert (Hnothing : forall (result : list pyval) count,
             count = 0 ->
             exists more,
               Ret result = Ret (result ++ more)
               /\ more = List.concat
                           (map (fun ex : exchange => body_logins (snd ex)) [])
               /\ Forall (fun login => is_identifier login = true) more
               /\ Z.of_nat (List.length more) <= count
               /\ Z.of_nat (List.length more) = count).
  { intros result count ->. exists []. rewrite app_nil_r.
    repeat split; auto; reflexivity. }
  induction fuel as [|fuel IH];
    intros headers count cursor result s out s' t Hcount Hcursor Hfuel Hrun.
  - assert (count = 0) as Hzero by lia. subst count. simpl in Hrun.
    injection Hrun as <- _ <-.
    destruct (Hnothing result 0 eq_refl) as (more & H1 & H2 & H3 & H4 & H5).
    split; intros _; exists more; auto.
  - destruct (Z.eq_dec count 0) as [->|Hc].
    + rewrite fetch_loop_done in Hrun. injection Hrun as <- _ <-.
      destruct (Hnothing result 0 eq_refl) as (more & H1 & H2 & H3 & H4 & H5).
      split; intros _; exists more; auto.
    + rewrite fetch_loop_step in Hrun by assumption. cbv zeta in Hrun.
      rewrite before_request_made in Hrun
        by (assumption || (pose proof hundred_has_text; lia)).
      set (batch := Z.min count TWITCH_PAGE_SIZE) in *.
      assert (Hbatch : 0 < batch <= count)
        by (unfold batch, TWITCH_PAGE_SIZE; lia).
      destruct (http_get _ s) as [[data|e] s1].
      * destruct (read_page data) as [[c logins]|e|] eqn:Hread.
        -- destruct (fetch_loop http_get fuel headers (count - batch) c
                       (result ++ logins) s1) as [[o s2] t'] eqn:Hrest.
           injection Hrun as <- _ <-.
           split; intros Hall; inversion Hall as [|e0 l0 Hhead Htail]; subst.
           ++ destruct Hhead as [Hwf (first & Hfirst & Hitems)].
              unfold answered_well, items_of in *. simpl in *.
              injection Hfirst as <-.
              destruct (read_well_formed_page data Hwf)
                as (c' & Hr & Hc' & Hid & Hlen).
              rewrite Hread in Hr. injection Hr as -> ->.
              apply IH in Hrest as [IHle _]; [|lia|assumption|lia].
              destruct (IHle Htail) as (more & -> & Hconcat & Hmore & Hle).
              exists (body_logins (Body data) ++ more).
              split; [now rewrite app_assoc|].
              split; [now rewrite Hconcat|]. split; [apply Forall_app; auto|].
              rewrite length_app, Hlen. lia.
           ++ destruct Hhead as [Hwf Hfirst].
              unfold answered_well, items_of in *. simpl in *.
              injection Hfirst as Hfirst.
              destruct (read_well_formed_page data Hwf)
                as (c' & Hr & Hc' & Hid & Hlen).
              rewrite Hread in Hr. injection Hr as -> ->.
              apply IH in Hrest as [_ IHeq]; [|lia|assumption|lia].
              destruct (IHeq Htail) as (more & -> & Hconcat & Hmore & Heq).
              exists (body_logins (Body data) ++ more).
              split; [now rewrite app_assoc|].
              split; [now rewrite Hconcat|]. split; [apply Forall_app; auto|].
              rewrite length_app, Hlen. lia.
        -- injection Hrun as <- _ <-.
           split; intros Hall; inversion Hall as [|e0 l0 Hhead Htail]; subst;
             destruct Hhead as [Hwf _]; unfold answered_well in Hwf;
             simpl in Hwf;
             destruct (read_well_formed data Hwf) as (c' & l' & Hr & _);
             congruence.
        -- exfalso. eapply read_page_fuel, Hread.
      * injection Hrun as <- _ <-.
        split; intros Hall; inversion Hall as [|e0 l0 Hhead Htail]; subst;
          destruct Hhead as [Hwf _]; contradiction.
Qed.

Lemma pages_step count :
  0 < count -> pages count = S (pages (count - Z.min count 100)).
Proof.
  intros Hpos. unfold pages.
  rewrite <- Z2Nat.inj_succ by (apply Z.div_pos; lia). f_equal.
  destruct (Z.le_gt_cases count 100) as [Hle|Hgt].
  - rewrite Z.min_l by lia.
    replace (count - count + 99) with 99 by lia.
    change (99 / 100) with 0.
    symmetry. apply (Z.div_unique _ _ _ (count - 1)); lia.
  - rewrite Z.min_r by lia.
    replace (count + 99) with (count - 100 + 99 + 1 * 100) by lia.
    rewrite Z.div_add by lia. lia.
Qed.

Lemma pages_ceiling count :
  0 <= count -> count <= 100 * Z.of_nat (pages count) < count + 100.
Proof.
  intros Hpos. unfold pages.
  rewrite Z2Nat.id by (apply Z.div_pos; lia).
  pose proof (Z.div_mod (count + 99) 100 ltac:(lia)) as Hdiv.
  pose proof (Z.mod_pos_bound (count + 99) 100 ltac:(lia)) as Hmod.
  lia.
Qed.

Lemma batch_sizes_length n remaining :
  List.length (batch_sizes n remaining) = n.
Proof.
  revert remaining. induction n as [|n IH]; intros remaining; simpl;
    [reflexivity|]. now rewrite IH.
Qed.

(** Within the limits and with success bodies, whatever their length, the
    loop asks for the expected batches and returns. *)
Lemma fetch_loop_requests fuel : forall headers count cursor result s out s' t,
  0 <= count < COUNT_LIMIT ->
  has_text cursor = true ->
  (Z.to_nat count <= fuel)%nat ->
  fetch_loop http_get fuel headers count cursor result s = (out, s', t) ->
  Forall answered_well t ->
  map (fun e => requested (fst e)) t = map Some (expected_batches count)
  /\ exists more, out = Ret (result ++ more).
Proof.
  induction fuel as [|fuel IH];
    intros headers count cursor result s out s' t Hpos Hcursor Hfuel Hrun Hall.
  - assert (count = 0) as Hzero by lia. subst count. simpl in Hrun.
    injection Hrun as <- _ <-. split; [reflexivity|].
    exists []. now rewrite app_nil_r.
  - destruct (Z.eq_dec count 0) as [->|Hc].
    + rewrite fetch_loop_done in Hrun. injection Hrun as <- _ <-.
      split; [reflexivity|]. exists []. now rewrite app_nil_r.
    + rewrite fetch_loop_step in Hrun by assumption. cbv zeta in Hrun.
      rewrite before_request_made in Hrun
        by (assumption || (pose proof hundred_has_text; lia)).
      unfold TWITCH_PAGE_SIZE in Hrun.
      unfold expected_batches. rewrite pages_step by lia. simpl.
      fold (expected_batches (count - Z.min count 100)).
      destruct (http_get _ s) as [[data|e] s1].
      * destruct (read_page data) as [[c logins]|e|] eqn:Hread.
        -- destruct (fetch_loop http_get fuel headers _ c
                       (result ++ logins) s1) as [[o s2] t'] eqn:Hrest.
           injection Hrun as <- _ <-.
           inversion Hall as [|e0 l0 Hhead Htail]; subst.
           unfold answered_well in Hhead. simpl in Hhead.
           destruct (read_well_formed_page data Hhead)
             as (c' & Hr & Hc' & _ & _).
           rewrite Hread in Hr. injection Hr as -> ->.
           apply IH in Hrest as [Hreq (more & ->)];
             [|lia|assumption|lia|assumption].
           simpl. rewrite Hreq. split; [reflexivity|].
           eexists. now rewrite <- app_assoc.
        -- injection Hrun as <- _ <-.
           inversion Hall as [|e0 l0 Hhead Htail]; subst.
           unfold answered_well in Hhead. simpl in Hhead.
           destruct (read_well_formed data Hhead) as (c' & l' & Hr & _).
           congruence.
        -- exfalso. eapply read_page_fuel, Hread.
      * injection Hrun as <- _ <-.
        inversion Hall as [|e0 l0 Hhead Htail]; subst. contradiction.
Qed.

(** From [COUNT_LIMIT] on the first turn raises before its request. *)
Lemma fetch_loop_overflows fuel headers count cursor result s :
  COUNT_LIMIT <= count ->
  has_text cursor = true ->
  fetch_loop http_get (S fuel) headers count cursor result s
  = (Raise OverflowError, s, []).
Proof.
  intros Hcount Hcursor. pose proof float_overflow_positive as Hfloat.
  rewrite fetch_loop_step
    by (unfold COUNT_LIMIT, TWITCH_PAGE_SIZE in Hcount; lia).
  cbv zeta. now rewrite before_request_overflows.
Qed.

End Pagination.

Lemma top_streamers_overflow {St : Type}
    (http_get : request -> St -> reply * St) creds count s :
  COUNT_LIMIT <= count ->
  get_top_streamers http_get creds count s = (Raise OverflowError, s, []).
Proof.
  intros Hcount. pose proof float_overflow_positive as Hfloat.
  unfold get_top_streamers.
  destruct (Z.to_nat (Z.abs count)) as [|fuel] eqn:Hfuel;
    [unfold COUNT_LIMIT, TWITCH_PAGE_SIZE in Hcount; lia|].
  now apply fetch_loop_overflows.
Qed.

Lemma ten_to_311_over_limit : COUNT_LIMIT <= 10 ^ 311.
Proof. vm_compute. discriminate. Qed.

(** C1, as amended.  For a non-negative [count] below [COUNT_LIMIT] (about
    1.8e310, where the debug message of the loop stops overflowing), when
    every response of the run is a success body (no [message] field)
    holding at most the number of items asked for, [get_top_streamers]
    returns the [user_login] strings of the pages, in order, at most
    [count] of them; when every response holds exactly the number asked
    for, the list has [count] identifiers. *)
Theorem top_streamers_length {St : Type} (http_get : request -> St -> reply * St)
    (creds : credentials) (count : Z) (s : St) out s' t :
  0 <= count < COUNT_LIMIT ->
  get_top_streamers http_get creds count s = (out, s', t) ->
  (Forall at_most_requested t ->
   exists result,
     out = Ret result
     /\ result = List.concat (map (fun ex => body_logins (snd ex)) t)
     /\ Forall (fun login => is_identifier login = true) result
     /\ Z.of_nat (List.length result) <= count)
  /\ (Forall exactly_requested t ->
      exists result,
        out = Ret result
        /\ result = List.concat (map (fun ex => body_logins (snd ex)) t)
        /\ Forall (fun login => is_identifier login = true) result
        /\ Z.of_nat (List.length result) = count).
Proof.
  intros Hpos Hrun. unfold get_top_streamers in Hrun.
  apply fetch_loop_length in Hrun; [exact Hrun|lia|reflexivity|lia].
Qed.

Lemma top_streamers_length_border :
  0 <= 102 < COUNT_LIMIT
  /\ Forall exactly_requested (snd border_run)
  /\ exists result,
       fst (fst border_run) = Ret result
       /\ result = map numbered_login (seq 0 100 ++ [99; 100]%nat)
       /\ Z.of_nat (List.length result) = 102.
Proof.
  assert (Hcount : 0 <= 102 < COUNT_LIMIT) by (split; reflexivity || discriminate).
  assert (Hall : Forall exactly_requested (snd border_run))
    by (vm_compute; repeat constructor).
  split; [exact Hcount|]. split; [exact Hall|].
  destruct (proj2 (top_streamers_length border_pages Fake.creds 102 0%nat
                     (fst (fst border_run)) (snd (fst border_run))
                     (snd border_run) Hcount
                     ltac:(vm_compute; reflexivity)) Hall)
    as (result & Hout & Hresult & _ & Hlen).
  exists result. split; [exact Hout|]. split; [|exact Hlen].
  rewrite Hresult. vm_compute. reflexivity.
Defined.

(** C1, as stated, fails: from [COUNT_LIMIT] on the call raises
    [OverflowError] before its first request and returns no list. *)
Lemma huge_count_returns_no_list :
  ~ (forall (http_get : request -> nat -> reply * nat)
            (creds : credentials) (count : Z) (s : nat) out s' t,
        0 <= count ->
        get_top_streamers http_get creds count s = (out, s', t) ->
        Forall at_most_requested t ->
        exists result,
          out = Ret result /\ Z.of_nat (List.length result) <= count).
Proof.
  intros H.
  destruct (H Fake.full_pages Fake.creds (10 ^ 311) 0%nat
              (Raise OverflowError) 0%nat [])
    as (result & Hout & _).
  - discriminate.
  - apply top_streamers_overflow, ten_to_311_over_limit.
  - constructor.
  - discriminate.
Qed.

(** C4, as amended.  The loop ends, and for a non-negative [count] below
    [COUNT_LIMIT], when every response of the run is a success body,
    [get_top_streamers] issues exactly [ceil(count / 100)] requests whose
    batch sizes are [min(remaining, 100)], [remaining] going down by the
    size asked for and not by the number of items received; the requests
    are the same whatever the bodies hold.  For [count = 250] the sizes are
    100, 100, 50. *)
Theorem top_streamers_batches {St : Type}
    (http_get : request -> St -> reply * St)
    (creds : credentials) (count : Z) (s : St) out s' t :
  0 <= count < COUNT_LIMIT ->
  get_top_streamers http_get creds count s = (out, s', t) ->
  out <> NoFuel
  /\ (Forall answered_well t ->
      map (fun e => requested (fst e)) t = map Some (expected_batches count)
      /\ List.length t = pages count
      /\ exists result, out = Ret result)
  /\ count <= 100 * Z.of_nat (pages count) < count + 100
  /\ expected_batches 250 = [100; 100; 50].
Proof.
  intros Hpos Hrun.
  split; [|split; [|split; [apply pages_ceiling; lia|reflexivity]]].
  - pose proof (fetch_loop_fuel http_get (Z.to_nat (Z.abs count))
                  [("Client-ID", client_id creds);
                   ("Authorization", ("Bearer " ++ access_token creds)%string)]
                  count (PStr "") [] s (Nat.le_refl _)) as Hfuel.
    unfold get_top_streamers in Hrun. rewrite Hrun in Hfuel. exact Hfuel.
  - intros Hall. unfold get_top_streamers in Hrun.
    apply fetch_loop_requests in Hrun as [Hreq (more & ->)];
      [|lia|reflexivity|lia|assumption].
    split; [exact Hreq|]. split; [|eauto].
    apply (f_equal (@List.length _)) in Hreq.
    rewrite !length_map in Hreq.
    transitivity (List.length (expected_batches count));
      [exact Hreq | apply batch_sizes_length].
Qed.

Lemma top_streamers_batches_short :
  0 <= 250 < COUNT_LIMIT
  /\ Forall answered_well (snd Fake.short_run)
  /\ map (fun e => requested (fst e)) (snd Fake.short_run)
     = [Some 100; Some 100; Some 50]
  /\ List.length (snd Fake.short_run) = 3%nat.
Proof.
  assert (Hcount : 0 <= 250 < COUNT_LIMIT) by (split; reflexivity || discriminate).
  split; [exact Hcount|].
  assert (Hall : Forall answered_well (snd Fake.short_run))
    by (vm_compute; repeat constructor).
  split; [exact Hall|].
  destruct (top_streamers_batches Fake.short_pages Fake.creds 250 0%nat
              (fst (fst Fake.short_run)) (snd (fst Fake.short_run))
              (snd Fake.short_run)) as (_ & Hbatches & _ & _).
  - exact Hcount.
  - vm_compute. reflexivity.
  - destruct (Hbatches Hall) as (Hreq & Hlen & _). split; assumption.
Defined.

(** C4, as stated, fails: from [COUNT_LIMIT] on no request is made, and
    the call does not return. *)
Lemma huge_count_makes_no_request :
  ~ (forall (http_get : request -> nat -> reply * nat)
            (creds : credentials) (count : Z) (s : nat) out s' t,
        0 <= count ->
        get_top_streamers http_get creds count s = (out, s', t) ->
        Forall answered_well t ->
        List.length t = pages count /\ exists result, out = Ret result).
Proof.
  intros H.
  destruct (H Fake.full_pages Fake.creds (10 ^ 311) 0%nat
              (Raise OverflowError) 0%nat [])
    as (_ & result & Hout).
  - discriminate.
  - apply top_streamers_overflow, ten_to_311_over_limit.
  - constructor.
  - discriminate.
Qed.

(** ** Cursors and error bodies *)

Lemma read_page_cursor data c logins :
  read_page data = Ret (c, logins) -> page_cursor (Body data) = Ret c.
Proof.
  unfold read_page, page_cursor.
  destruct (py_get data "message") as [msg|e|]; simpl; try discriminate.
  destruct (truthy msg); [discriminate|].
  destruct (subscript data "pagination") as [pagination|e|]; simpl;
    try discriminate.
  destruct (subscript pagination "cursor") as [c'|e|]; simpl;
    try discriminate.
  destruct (subscript data "data") as [rows|e|]; simpl; try discriminate.
  destruct (user_logins rows) as [l|e|]; simpl; try discriminate.
  congruence.
Qed.

Lemma read_page_message rp data m :
  rp = Body data -> message_of rp = Some m -> truthy m = true ->
  read_page data = Raise (Exception m).
Proof.
  intros -> Hm Ht. unfold message_of in Hm.
  destruct data as [| | | | |?|d]; try discriminate.
  unfold read_page. simpl. rewrite Hm. simpl. now rewrite Ht.
Qed.

Lemma read_page_falsy d m :
  dict_get "message" d = Some m -> truthy m = false ->
  read_page (PDict d) = read_fields (PDict d).
Proof.
  intros Hm Ht. unfold read_page. simpl py_get. rewrite Hm. simpl.
  now rewrite Ht.
Qed.

Lemma user_logins_no_Exception rows x :
  user_logins rows <> Raise (Exception x).
Proof.
  unfold user_logins.
  destruct (py_iter rows) as [elements|e|] eqn:Hit; simpl.
  - clear Hit. induction elements as [|el rest IH]; simpl; [discriminate|].
    destruct el; simpl; try discriminate.
    destruct (dict_get "user_login" entries); simpl; [|discriminate].
    destruct (map_outcome _ rest); simpl; try discriminate.
    exact IH.
  - destruct rows; simpl in Hit; congruence.
  - discriminate.
Qed.

Lemma subscript_no_Exception v k x : subscript v k <> Raise (Exception x).
Proof.
  destruct v; simpl; try discriminate.
  destruct (dict_get k entries); discriminate.
Qed.

Lemma read_fields_no_Exception data x :
  read_fields data <> Raise (Exception x).
Proof.
  unfold read_fields.
  pose proof (subscript_no_Exception data "pagination" x).
  destruct (subscript data "pagination") as [pagination|e|]; simpl;
    try congruence.
  pose proof (subscript_no_Exception pagination "cursor" x).
  destruct (subscript pagination "cursor") as [c|e|]; simpl; try congruence.
  pose proof (subscript_no_Exception data "data" x).
  destruct (subscript data "data") as [rows|e|]; simpl; try congruence.
  pose proof (user_logins_no_Exception rows x).
  destruct (user_logins rows) as [l|e|]; simpl; congruence.
Qed.

Section Threading.

Context {St : Type} (http_get : request -> St -> reply * St).

(** The first request of the loop carries the loop's cursor, and each later
    one the cursor of the response before it. *)
Lemma fetch_loop_threaded fuel : forall headers count cursor result s out s' t,
  fetch_loop http_get fuel headers count cursor result s = (out, s', t) ->
  (forall rq rp, nth_error t 0 = Some (rq, rp) -> after_of rq = Some cursor)
  /\ (forall N rq rp rq' rp',
        nth_error t N = Some (rq, rp) ->
        nth_error t (S N) = Some (rq', rp') ->
        exists c, page_cursor rp = Ret c /\ after_of rq' = Some c).
Proof.
  induction fuel as [|fuel IH];
    intros headers count cursor result s out s' t Hrun.
  - simpl in Hrun. destruct (count =? 0)%Z; injection Hrun as _ _ <-;
      (split; [intros; discriminate|intros [|N]; intros; discriminate]).
  - destruct (Z.eq_dec count 0) as [->|Hc].
    + rewrite fetch_loop_done in Hrun. injection Hrun as _ _ <-.
      split; [intros; discriminate|intros [|N]; intros; discriminate].
    + rewrite fetch_loop_step in Hrun by assumption. cbv zeta in Hrun.
      pose proof (before_request_fuel count cursor) as Hbefore.
      destruct (before_request count cursor) as [[]|e9|];
        [| injection Hrun as _ _ <-;
          (split; [intros; discriminate|intros [|N]; intros; discriminate]) | contradiction].
      destruct (http_get _ s) as [[data|e] s1].
      * destruct (read_page data) as [[c logins]|e|] eqn:Hread.
        -- destruct (fetch_loop http_get fuel headers _ c
                       (result ++ logins) s1) as [[o s2] t'] eqn:Hrest.
           injection Hrun as _ _ <-.
           apply IH in Hrest as [Hfirst Hnext]. split.
           ++ intros rq rp H. injection H as <- _. reflexivity.
           ++ intros [|N] rq rp rq' rp' H H'; simpl in H, H'.
              ** injection H as <- <-. exists c. split.
                 --- eapply read_page_cursor, Hread.
                 --- eapply Hfirst, H'.
              ** eapply Hnext; eassumption.
        -- injection Hrun as _ _ <-. split.
           ++ intros rq rp H. injection H as <- _. reflexivity.
           ++ intros [|[|N]]; intros; discriminate.
        -- injection Hrun as _ _ <-. split.
           ++ intros rq rp H. injection H as <- _. reflexivity.
           ++ intros [|[|N]]; intros; discriminate.
      * injection Hrun as _ _ <-. split.
        ++ intros rq rp H. injection H as <- _. reflexivity.
        ++ intros [|[|N]]; intros; discriminate.
Qed.

(** A body with a truthy [message] ends the loop with that message. *)
Lemma fetch_loop_message fuel : forall headers count cursor result s out s' t,
  fetch_loop http_get fuel headers count cursor result s = (out, s', t) ->
  forall before rq data after m,
    t = before ++ (rq, Body data) :: after ->
    message_of (Body data) = Some m ->
    truthy m = true ->
    out = Raise (Exception m) /\ after = [].
Proof.
  induction fuel as [|fuel IH];
    intros headers count cursor result s out s' t Hrun
           before rq data after m Ht Hm Htruthy.
  - simpl in Hrun. destruct (count =? 0)%Z; injection Hrun as _ _ <-;
      destruct before; discriminate.
  - destruct (Z.eq_dec count 0) as [->|Hc].
    + rewrite fetch_loop_done in Hrun. injection Hrun as _ _ <-.
      destruct before; discriminate.
    + rewrite fetch_loop_step in Hrun by assumption. cbv zeta in Hrun.
      pose proof (before_request_fuel count cursor) as Hbefore.
      destruct (before_request count cursor) as [[]|e9|];
        [| injection Hrun as _ _ <-; destruct before; discriminate | contradiction].
      destruct (http_get _ s) as [[data0|e] s1].
      * destruct (read_page data0) as [[c logins]|e|] eqn:Hread.
        -- destruct (fetch_loop http_get fuel headers _ c
                       (result ++ logins) s1) as [[o s2] t'] eqn:Hrest.
           injection Hrun as <- _ <-.
           destruct before as [|e0 before]; simpl in Ht.
           ++ injection Ht as _ <- _.
              rewrite (read_page_message _ data0 m eq_refl Hm Htruthy) in Hread.
              discriminate.
           ++ injection Ht as _ Ht.
              eapply IH; eassumption.
        -- injection Hrun as <- _ <-.
           destruct before as [|e0 [|e1 before]]; simpl in Ht;
             try discriminate.
           injection Ht as _ <- <-.
           rewrite (read_page_message _ data0 m eq_refl Hm Htruthy) in Hread.
           injection Hread as <-. split; reflexivity.
        -- exfalso. eapply read_page_fuel, Hread.
      * injection Hrun as <- _ <-.
        destruct before as [|e0 [|e1 before]]; simpl in Ht; discriminate.
Qed.

End Threading.

(** C5. The page requests of [get_top_streamers] thread the cursor one after
    the other: the first request carries the empty string in [after], and
    the request after the [N]-th carries the [pagination.cursor] of the
    [N]-th response. *)
Theorem cursor_threading {St : Type} (http_get : request -> St -> reply * St)
    (creds : credentials) (count : Z) (s : St) out s' t :
  get_top_streamers http_get creds count s = (out, s', t) ->
  (forall rq rp, nth_error t 0 = Some (rq, rp) -> after_of rq = Some (PStr ""))
  /\ (forall N rq rp rq' rp',
        nth_error t N = Some (rq, rp) ->
        nth_error t (S N) = Some (rq', rp') ->
        exists c, page_cursor rp = Ret c /\ after_of rq' = Some c).
Proof.
  intros Hrun. unfold get_top_streamers in Hrun.
  eapply fetch_loop_threaded, Hrun.
Qed.

Lemma cursor_threading_full :
  after_of (fst (Fake.nth_exchange 0 (snd Fake.full_run))) = Some (PStr "")
  /\ exists c,
       page_cursor (snd (Fake.nth_exchange 1 (snd Fake.full_run))) = Ret c
       /\ after_of (fst (Fake.nth_exchange 2 (snd Fake.full_run))) = Some c.
Proof.
  destruct (cursor_threading Fake.full_pages Fake.creds 250 0%nat
              (fst (fst Fake.full_run)) (snd (fst Fake.full_run))
              (snd Fake.full_run)) as [Hfirst Hnext].
  - vm_compute. reflexivity.
  - split.
    + apply (Hfirst _ (snd (Fake.nth_exchange 0 (snd Fake.full_run)))).
      vm_compute. reflexivity.
    + apply (Hnext 1%nat (fst (Fake.nth_exchange 1 (snd Fake.full_run))) _ _
               (snd (Fake.nth_exchange 2 (snd Fake.full_run))));
        vm_compute; reflexivity.
Defined.

(** C3, as amended.  When the [message] field of a response body holds a
    truthy value, [get_top_streamers] raises [Exception] with that value: the
    response is the last exchange of the run, and the run returns no list. *)
Theorem truthy_message_fails {St : Type}
    (http_get : request -> St -> reply * St)
    (creds : credentials) (count : Z) (s : St) out s' t before rq rp after m :
  get_top_streamers http_get creds count s = (out, s', t) ->
  t = before ++ (rq, rp) :: after ->
  message_of rp = Some m ->
  truthy m = true ->
  out = Raise (Exception m) /\ after = [].
Proof.
  intros Hrun Ht Hm Htruthy. unfold get_top_streamers in Hrun.
  destruct rp as [data|e]; [|discriminate].
  eapply fetch_loop_message; eassumption.
Qed.

Lemma truthy_message_fails_second_page :
  snd Fake.failing_run
  = [Fake.nth_exchange 0 (snd Fake.failing_run)]
      ++ (fst (Fake.nth_exchange 1 (snd Fake.failing_run)),
          Body Fake.invalid_token) :: []
  /\ fst (fst Fake.failing_run) = Raise (Exception (PStr "invalid token")).
Proof.
  assert (Ht : snd Fake.failing_run
               = [Fake.nth_exchange 0 (snd Fake.failing_run)]
                   ++ (fst (Fake.nth_exchange 1 (snd Fake.failing_run)),
                       Body Fake.invalid_token) :: [])
    by (vm_compute; reflexivity).
  split; [exact Ht|].
  refine (proj1 (truthy_message_fails Fake.second_page_fails Fake.creds 250
                   0%nat (fst (fst Fake.failing_run))
                   (snd (fst Fake.failing_run)) (snd Fake.failing_run)
                   _ _ _ _ (PStr "invalid token") _ Ht _ _)).
  - vm_compute. reflexivity.
  - reflexivity.
  - reflexivity.
Defined.

(** C3, as stated, fails: a body whose [message] field is the empty string
    is read like a success body, and the run returns its logins. *)
Lemma message_field_may_pass :
  ~ (forall (http_get : request -> unit -> reply * unit)
            (creds : credentials) (count : Z) (s : unit) out s' t
            before rq rp after m,
        get_top_streamers http_get creds count s = (out, s', t) ->
        t = before ++ (rq, rp) :: after ->
        message_of rp = Some m ->
        out = Raise (Exception m) /\ after = []).
Proof.
  intros H.
  destruct (H Fake.empty_message Fake.creds 2 tt
              (fst (fst Fake.empty_message_run))
              (snd (fst Fake.empty_message_run))
              (snd Fake.empty_message_run)
              [] (fst (Fake.nth_exchange 0 (snd Fake.empty_message_run)))
              (Body Fake.empty_message_page) [] (PStr "")
              eq_refl eq_refl eq_refl) as [Hout _].
  vm_compute in Hout. discriminate.
Qed.

(** C9. A body whose [message] field holds a falsy value is not an error:
    the loop reads [pagination.cursor] and the rows of that body as it does
    for a body without the field, and raises no [Exception] for it; the
    turn that gets the body as its reply (its lines 36 to 40 have raised
    nothing) goes on with that cursor and those logins. *)
Theorem falsy_message_is_read {St : Type}
    (http_get : request -> St -> reply * St)
    fuel headers count cursor result (s s1 : St) d m :
  dict_get "message" d = Some m ->
  truthy m = false ->
  count <> 0 ->
  http_get (mk_request (Helix_streams (Z.min count TWITCH_PAGE_SIZE) cursor)
              headers) s = (Body (PDict d), s1) ->
  read_page (PDict d) = read_fields (PDict d)
  /\ (forall x, read_page (PDict d) <> Raise (Exception x))
  /\ (before_request count cursor = Ret tt ->
      fetch_loop http_get (S fuel) headers count cursor result s
      = let batch := Z.min count TWITCH_PAGE_SIZE in
        let rq := mk_request (Helix_streams batch cursor) headers in
        match read_fields (PDict d) with
        | Ret (c, logins) =>
            let '(o, s2, t) :=
              fetch_loop http_get fuel headers (count - batch) c
                (result ++ logins) s1 in
            (o, s2, (rq, Body (PDict d)) :: t)
        | Raise e => (Raise e, s1, [(rq, Body (PDict d))])
        | NoFuel => (NoFuel, s1, [(rq, Body (PDict d))])
        end).
Proof.
  intros Hm Hfalsy Hc Hget.
  pose proof (read_page_falsy d m Hm Hfalsy) as Hread.
  split; [exact Hread|]. split.
  - intros x. rewrite Hread. apply read_fields_no_Exception.
  - intros Hbefore. rewrite fetch_loop_step by assumption. cbv zeta.
    rewrite Hbefore, Hget, Hread. reflexivity.
Qed.

Lemma falsy_message_is_read_empty :
  truthy (PStr "") = false
  /\ read_page Fake.empty_message_page = read_fields Fake.empty_message_page
  /\ fst (fst Fake.empty_message_run) = Ret [PStr "a"; PStr "b"].
Proof.
  split; [reflexivity|].
  destruct (falsy_message_is_read Fake.empty_message 1
              [("Client-ID", "id"); ("Authorization", "Bearer token")]
              2 (PStr "") [] tt tt
              [("message", PStr "");
               ("data", PList [Fake.streamer_row "a"; Fake.streamer_row "b"]);
               ("pagination", PDict [("cursor", PStr "next")])]
              (PStr "")) as (Hread & _ & Hloop).
  - reflexivity.
  - reflexivity.
  - discriminate.
  - reflexivity.
  - split; [exact Hread|].
    specialize (Hloop ltac:(vm_compute; reflexivity)).
    change (fst (fst Fake.empty_message_run))
      with (fst (fst (fetch_loop Fake.empty_message 2
                        [("Client-ID", "id"); ("Authorization", "Bearer token")]
                        2 (PStr "") [] tt))).
    rewrite Hloop. reflexivity.
Defined.

(** ** The viewers of one channel *)

Section Viewers.

Context {St : Type} (http_get : request -> St -> reply * St).

(** The one exchange of [get_current_viewers] and what it makes of it. *)
Lemma get_current_viewers_run channel s :
  let rq := mk_request (Plain (chatters_url channel)) [] in
  get_current_viewers http_get channel s =
  match http_get rq s with
  | (Body data, s1) =>
      ((chatters <- subscript data "chatters" ;;
        groups <- py_values chatters ;;
        flatten groups)%out, s1, [(rq, Body data)])
  | (Failed e, s1) => (Raise e, s1, [(rq, Failed e)])
  end.
Proof.
  cbv zeta. unfold get_current_viewers, bind, session_get, lift, ret.
  destruct (http_get _ s) as [[data|e] s1]; [|reflexivity].
  destruct (subscript data "chatters") as [chatters|e|]; try reflexivity.
  simpl. destruct (py_values chatters) as [groups|e|]; try reflexivity.
  simpl. destruct (flatten groups) as [viewers|e|]; reflexivity.
Qed.

Lemma get_current_viewers_fuel channel s :
  fst (fst (get_current_viewers http_get channel s)) <> NoFuel.
Proof.
  rewrite get_current_viewers_run. cbv zeta.
  destruct (http_get _ s) as [[data|e] s1]; simpl; [|discriminate].
  apply and_then_fuel; [apply subscript_fuel|]. intros chatters.
  apply and_then_fuel; [destruct chatters; discriminate|]. intros groups.
  apply flatten_fuel.
Qed.

End Viewers.

Lemma flatten_lists (groups : list (list pyval)) :
  flatten (map PList groups) = Ret (List.concat groups).
Proof.
  unfold flatten.
  assert (H : map_outcome py_iter (map PList groups) = Ret groups).
  { induction groups as [|g rest IH]; simpl; [reflexivity|].
    rewrite IH. reflexivity. }
  rewrite H. reflexivity.
Qed.

Lemma lower_char_not_upper c : is_upper (lower_char c) = false.
Proof.
  destruct c as [[] [] [] [] [] [] [] []]; vm_compute; reflexivity.
Qed.

Lemma lower_not_upper s :
  Forall (fun c => is_upper c = false) (list_ascii_of_string (lower s)).
Proof.
  induction s as [|c rest IH]; simpl; constructor; auto.
  apply lower_char_not_upper.
Qed.

(** C6. When the [chatters] field of the response is a dict of lists,
    [get_current_viewers] returns the lists of the role groups one after the
    other, in the order of the dict and whatever the roles are called, each
    group in its own order.  For the chatters
    [{"viewers": ["a", "b"], "moderators": ["c"]}] the result is
    ["a"; "b"; "c"]. *)
Theorem viewers_flattened {St : Type} (http_get : request -> St -> reply * St)
    (channel : string) (s s1 : St) data (groups : list (string * list pyval)) :
  http_get (mk_request (Plain (chatters_url channel)) []) s = (Body data, s1) ->
  subscript data "chatters"
  = Ret (PDict (map (fun g => (fst g, PList (snd g))) groups)) ->
  fst (fst (get_current_viewers http_get channel s))
  = Ret (List.concat (map snd groups))
  /\ fst (fst (get_current_viewers
                (Fake.always
                   (PDict [("chatters",
                            PDict [("viewers", PList [PStr "a"; PStr "b"]);
                                   ("moderators", PList [PStr "c"])])]))
                channel tt))
     = Ret [PStr "a"; PStr "b"; PStr "c"].
Proof.
  intros Hget Hchatters. split.
  - rewrite get_current_viewers_run. cbv zeta. rewrite Hget. simpl.
    rewrite Hchatters. simpl. unfold dict_values. rewrite map_map. simpl.
    rewrite <- (map_map snd PList). apply flatten_lists.
  - rewrite get_current_viewers_run. reflexivity.
Qed.

Lemma viewers_flattened_ch1 :
  fst (fst (get_current_viewers Fake.chatters "ch1" tt))
  = Ret [PStr "a"; PStr "b"; PStr "c"].
Proof.
  refine (proj1 (viewers_flattened Fake.chatters "ch1" tt tt
                   Fake.chatters_body
                   [("viewers", [PStr "a"; PStr "b"]);
                    ("moderators", [PStr "c"])] _ _)).
  - reflexivity.
  - reflexivity.
Defined.

(** C7. [get_current_viewers] puts the lowercased channel name in the URL of
    its request: the URL is
    [http://tmi.twitch.tv/group/user/<lowercased name>/chatters], the
    lowercased name has no capital left, and for "ChannelX" the URL
    contains "channelx". *)
Theorem channel_lowercased {St : Type} (http_get : request -> St -> reply * St)
    (channel : string) (s : St) :
  map (fun e => rq_url (fst e)) (snd (get_current_viewers http_get channel s))
  = [Plain ("http://tmi.twitch.tv/group/user/" ++ lower channel
            ++ "/chatters")%string]
  /\ Forall (fun c => is_upper c = false) (list_ascii_of_string (lower channel))
  /\ lower "ChannelX" = "channelx"
  /\ chatters_url "ChannelX"
     = "http://tmi.twitch.tv/group/user/channelx/chatters"
  /\ contains (chatters_url "ChannelX") "channelx".
Proof.
  split; [|split; [apply lower_not_upper|]].
  - rewrite get_current_viewers_run. cbv zeta.
    destruct (http_get _ s) as [[data|e] s1]; reflexivity.
  - repeat split.
    exists "http://tmi.twitch.tv/group/user/", "/chatters". reflexivity.
Qed.

(** C8. [get_current_viewers] looks at no error field and does not retry: an
    exception of the request or of the JSON decoding, and the exception of
    [data['chatters']], leave it as they are; the result depends on the body
    through [data['chatters']] alone, so a [message] field changes nothing;
    and a run makes one request. *)
Theorem viewers_errors_propagate {St : Type}
    (http_get : request -> St -> reply * St) (channel : string) (s : St) :
  let rq := mk_request (Plain (chatters_url channel)) [] in
  (forall e s1,
      http_get rq s = (Failed e, s1) ->
      get_current_viewers http_get channel s = (Raise e, s1, [(rq, Failed e)]))
  /\ (forall data e s1,
        http_get rq s = (Body data, s1) ->
        subscript data "chatters" = Raise e ->
        get_current_viewers http_get channel s
        = (Raise e, s1, [(rq, Body data)]))
  /\ (forall (other_get : request -> St -> reply * St) data data' s1 s2 s3,
        http_get rq s = (Body data, s1) ->
        other_get rq s2 = (Body data', s3) ->
        subscript data "chatters" = subscript data' "chatters" ->
        fst (fst (get_current_viewers http_get channel s))
        = fst (fst (get_current_viewers other_get channel s2)))
  /\ List.length (snd (get_current_viewers http_get channel s)) = 1%nat.
Proof.
  cbv zeta. repeat split.
  - intros e s1 Hget. rewrite get_current_viewers_run. cbv zeta.
    now rewrite Hget.
  - intros data e s1 Hget Hsub. rewrite get_current_viewers_run. cbv zeta.
    now rewrite Hget, Hsub.
  - intros other_get data data' s1 s2 s3 Hget Hother Hsame.
    rewrite !get_current_viewers_run. cbv zeta.
    now rewrite Hget, Hother, Hsame.
  - rewrite get_current_viewers_run. cbv zeta.
    destruct (http_get _ s) as [[data|e] s1]; reflexivity.
Qed.

Lemma viewers_errors_propagate_ch2 :
  get_current_viewers Fake.chatters "ch2" tt
  = (Raise (ClientError "connection reset"), tt,
     [(mk_request (Plain "http://tmi.twitch.tv/group/user/ch2/chatters") [],
       Failed (ClientError "connection reset"))])
  /\ get_current_viewers (Fake.always Fake.invalid_token) "ch2" tt
     = (Raise (KeyError "chatters"), tt,
        [(mk_request (Plain "http://tmi.twitch.tv/group/user/ch2/chatters") [],
          Body Fake.invalid_token)])
  /\ fst (fst (get_current_viewers
                (Fake.always
                   (PDict [("message", PStr "invalid token");
                           ("chatters", PDict [("viewers", PList [PStr "z"])])]))
                "ch2" tt))
     = fst (fst (get_current_viewers
                   (Fake.always
                      (PDict [("chatters", PDict [("viewers", PList [PStr "z"])])]))
                   "ch2" tt)).
Proof.
  destruct (viewers_errors_propagate Fake.chatters "ch2" tt)
    as (Hfailed & _ & _ & _).
  destruct (viewers_errors_propagate (Fake.always Fake.invalid_token) "ch2" tt)
    as (_ & Hkey & _ & _).
  split; [|split].
  - apply Hfailed. reflexivity.
  - apply (Hkey Fake.invalid_token). reflexivity. reflexivity.
  - destruct (viewers_errors_propagate
                (Fake.always
                   (PDict [("message", PStr "invalid token");
                           ("chatters", PDict [("viewers", PList [PStr "z"])])]))
                "ch2" tt) as (_ & _ & Hsame' & _).
    eapply Hsame'; reflexivity.
Defined.

(** ** Dictionaries *)

Lemma dict_get_set_same {V : Type} (k : string) (v : V) (d : dict V) :
  dict_get k (dict_set k v d) = Some v.
Proof.
  induction d as [|[k' v'] rest IH]; simpl.
  - now rewrite String.eqb_refl.
  - destruct (String.eqb k' k) eqn:E; simpl; rewrite E; auto.
Qed.

Lemma dict_get_set_other {V : Type} (k k0 : string) (v : V) (d : dict V) :
  k0 <> k -> dict_get k0 (dict_set k v d) = dict_get k0 d.
Proof.
  intros Hne. induction d as [|[k' v'] rest IH]; simpl.
  - destruct (String.eqb_spec k k0); [congruence|reflexivity].
  - destruct (String.eqb_spec k' k) as [->|Hk]; simpl.
    + destruct (String.eqb_spec k k0); [congruence|reflexivity].
    + destruct (String.eqb k' k0); auto.
Qed.

Lemma dict_keys_get {V : Type} (k : string) (d : dict V) :
  In k (dict_keys d) <-> dict_get k d <> None.
Proof.
  induction d as [|[k' v'] rest IH]; simpl.
  - split; [contradiction|congruence].
  - destruct (String.eqb_spec k' k) as [->|Hk].
    + split; [discriminate|auto].
    + rewrite <- IH. split; [intros [H|H]; [contradiction|exact H]|auto].
Qed.

Lemma unique_by_position {A B : Type} (l : list (A * B)) a b b' :
  NoDup (map fst l) -> In (a, b) l -> In (a, b') l -> b = b'.
Proof.
  induction l as [|[a0 b0] rest IH]; simpl; intros Hnd Hb Hb';
    [contradiction|].
  inversion Hnd as [|x xs Hnotin Hrest]; subst.
  destruct Hb as [Hb|Hb], Hb' as [Hb'|Hb'].
  - congruence.
  - injection Hb as <- <-. exfalso. apply Hnotin.
    apply (in_map fst) in Hb'. exact Hb'.
  - injection Hb' as <- <-. exfalso. apply Hnotin.
    apply (in_map fst) in Hb. exact Hb.
  - auto.
Qed.

(** ** The viewer map *)

Section ViewerMap.

Context {St : Type} (http_get : request -> St -> reply * St).

Lemma gather_skip {S A : Type} b (tasks : list (M S A)) i rest s :
  nth_error tasks i = None ->
  gather b tasks (i :: rest) s = gather b tasks rest s.
Proof. intros H. simpl. now rewrite H. Qed.

Lemma gather_run {S A : Type} (tasks : list (M S A)) i rest s task :
  nth_error tasks i = Some task ->
  gather true tasks (i :: rest) s
  = let '(o, s', t) := task s in
    match o with
    | NoFuel => (NoFuel, s', t)
    | _ =>
        let '(r, s'', t') := gather true tasks rest s' in
        (match r with
         | Ret done => Ret ((i, o) :: done)
         | Raise e => Raise e
         | NoFuel => NoFuel
         end, s'', t ++ t')
    end.
Proof.
  intros H. simpl. rewrite H. destruct (task s) as [[[a|e|] s'] t]; reflexivity.
Qed.

Lemma add_viewers_task_run streamer s data :
  add_viewers_task http_get streamer (s, data)
  = match get_current_viewers http_get streamer s with
    | (Ret viewers, s', t) => (Ret tt, (s', dict_set streamer viewers data), t)
    | (Raise e, s', t) => (Raise e, (s', data), t)
    | (NoFuel, s', t) => (NoFuel, (s', data), t)
    end.
Proof. reflexivity. Qed.

(** With [return_exceptions] the gathering never raises, and the dict holds
    what the fetches that returned have stored, in the order of
    completion. *)
Lemma gather_viewers streamers order : forall s data,
  exists results s' t,
    gather true (map (add_viewers_task http_get) streamers) order (s, data)
    = (Ret results,
       (s', fold_left (stored streamers)
              (viewer_fetches http_get order streamers s) data),
       t).
Proof.
  induction order as [|i rest IH]; intros s data.
  - simpl. unfold ret. eauto.
  - destruct (nth_error streamers i) as [channel|] eqn:Hi.
    + rewrite (gather_run _ _ _ _ (add_viewers_task http_get channel))
        by (rewrite nth_error_map, Hi; reflexivity).
      rewrite add_viewers_task_run. simpl viewer_fetches. rewrite Hi.
      pose proof (get_current_viewers_fuel http_get channel s) as Hfuel.
      destruct (get_current_viewers http_get channel s) as [[o s1] t1].
      simpl in Hfuel.
      destruct o as [viewers|e|]; [| |contradiction]; simpl; rewrite ?Hi.
      * destruct (IH s1 (dict_set channel viewers data))
          as (results & s' & t & ->). eauto.
      * destruct (IH s1 data) as (results & s' & t & ->). eauto.
    + rewrite gather_skip by (rewrite nth_error_map, Hi; reflexivity).
      simpl viewer_fetches. rewrite Hi. apply IH.
Qed.

Lemma get_viewer_map_run streamers order s :
  exists s' t,
    get_viewer_map http_get order streamers s
    = (Ret (fold_left (stored streamers)
              (viewer_fetches http_get order streamers s) []), s', t).
Proof.
  destruct (gather_viewers streamers order s []) as (results & s' & t & H).
  unfold get_viewer_map. unfold dict in *. rewrite H. eauto.
Qed.

(** Each task in range is fetched, at its place in the order. *)
Lemma viewer_fetches_positions streamers order : forall s,
  (forall i, In i order -> (i < List.length streamers)%nat) ->
  map fst (viewer_fetches http_get order streamers s) = order.
Proof.
  induction order as [|i rest IH]; intros s Hrange; simpl; [reflexivity|].
  destruct (nth_error streamers i) as [channel|] eqn:Hi.
  - destruct (get_current_viewers http_get channel s) as [[o s1] t1].
    simpl. f_equal. apply IH. intros j Hj. apply Hrange. now right.
  - apply nth_error_None in Hi. specialize (Hrange i (or_introl eq_refl)).
    lia.
Qed.

End ViewerMap.

(** What a key of the dict holds after the fetches: its old value when no
    fetch for it returned, and otherwise the viewers of one that did. *)
Lemma stored_lookup streamers (fetches : list (nat * outcome (list pyval)))
    data c :
  ((forall i viewers, In (i, Ret viewers) fetches ->
                      nth_error streamers i <> Some c)
   /\ dict_get c (fold_left (stored streamers) fetches data) = dict_get c data)
  \/ exists i viewers,
       In (i, Ret viewers) fetches
       /\ nth_error streamers i = Some c
       /\ dict_get c (fold_left (stored streamers) fetches data) = Some viewers.
Proof.
  induction fetches as [|[j o] rest IH] using rev_ind.
  - left. split; [intros i viewers []|reflexivity].
  - rewrite fold_left_app. cbn [fold_left].
    assert (Hkeep : (exists viewers, o = Ret viewers
                                     /\ nth_error streamers j = Some c)
                    \/ dict_get c (stored streamers
                                     (fold_left (stored streamers) rest data)
                                     (j, o))
                       = dict_get c (fold_left (stored streamers) rest data)
                         /\ forall viewers,
                              o = Ret viewers ->
                              nth_error streamers j <> Some c).
    { destruct o as [viewers|e|]; simpl;
        try (right; split; [reflexivity|intros; discriminate]).
      destruct (nth_error streamers j) as [channel|];
        [|right; split; [reflexivity|intros; discriminate]].
      destruct (string_dec channel c) as [->|Hne].
      - left. eauto.
      - right. split; [apply dict_get_set_other; congruence|].
        intros v _. congruence. }
    destruct Hkeep as [(viewers & -> & Hj)|[Hsame Hnot]].
    + right. exists j, viewers. split; [apply in_or_app; right; now left|].
      split; [exact Hj|]. simpl. rewrite Hj. apply dict_get_set_same.
    + rewrite Hsame.
      destruct IH as [[Hnone Hget]|(i & viewers & Hin & Hi & Hget)].
      * left. split; [|exact Hget].
        intros i viewers Hin. apply in_app_or in Hin as [Hin|[Hin|[]]].
        -- eapply Hnone, Hin.
        -- injection Hin as Hj Ho. subst j. eapply Hnot, Ho.
      * right. exists i, viewers.
        split; [apply in_or_app; now left|]. split; assumption.
Qed.

Lemma gather_nothing {S A : Type} b (order : list nat) (s : S) :
  gather b ([] : list (M S A)) order s = (Ret [], s, []).
Proof.
  induction order as [|i rest IH]; [reflexivity|].
  rewrite gather_skip by (destruct i; reflexivity). exact IH.
Qed.

(** C2. [get_viewer_map] keeps the failure of a fetch to its channel.  With
    every task run once, in whatever order the fetches complete: the call
    returns a dict and raises nothing; a channel whose fetch raised (every
    fetch made for it, if the list names it more than once) is not a key of
    the dict; a channel with a fetch that returned is a key, and holds the
    viewers of that fetch when the list names each channel once.  For
    ["ch1"; "ch2"] with the fetch of "ch2" raising, the dict has the entry of
    "ch1" and no other. *)
Theorem viewer_map_isolates_failures {St : Type}
    (http_get : request -> St -> reply * St)
    (order : list nat) (streamers : list string) (s : St) :
  Permutation order (seq 0 (List.length streamers)) ->
  let fetches := viewer_fetches http_get order streamers s in
  (exists data,
      fst (fst (get_viewer_map http_get order streamers s)) = Ret data
      /\ (forall i c, nth_error streamers i = Some c ->
                      exists o, In (i, o) fetches)
      /\ (forall c,
             (forall i o, In (i, o) fetches ->
                          nth_error streamers i = Some c ->
                          exists e, o = Raise e) ->
             dict_get c data = None)
      /\ (forall i c viewers,
             In (i, Ret viewers) fetches ->
             nth_error streamers i = Some c ->
             exists kept, dict_get c data = Some kept)
      /\ (NoDup streamers ->
          forall i c viewers,
            In (i, Ret viewers) fetches ->
            nth_error streamers i = Some c ->
            dict_get c data = Some viewers))
  /\ (forall completion,
         Permutation completion [0; 1]%nat ->
         fst (fst (get_viewer_map Fake.chatters completion ["ch1"; "ch2"] tt))
         = Ret [("ch1", [PStr "a"; PStr "b"; PStr "c"])]).
Proof.
  intros Hperm fetches. split.
  - destruct (get_viewer_map_run http_get streamers order s)
      as (s' & t & Hrun).
    assert (Hpos : map fst fetches = order).
    { apply viewer_fetches_positions. intros i Hi.
      apply (Permutation_in _ Hperm), in_seq in Hi. lia. }
    exists (fold_left (stored streamers) fetches []).
    split; [now rewrite Hrun|]. repeat split.
    + intros i c Hi.
      assert (Hin : In i (map fst fetches)).
      { rewrite Hpos. apply (Permutation_in _ (Permutation_sym Hperm)).
        apply in_seq. split; [lia|]. simpl. apply nth_error_Some. congruence. }
      apply in_map_iff in Hin as ([j o] & Hj & Hin). simpl in Hj. subst j.
      eauto.
    + intros c Hraised.
      destruct (stored_lookup streamers fetches [] c)
        as [[_ Hget]|(i & viewers & Hin & Hi & _)]; [exact Hget|].
      destruct (Hraised _ _ Hin Hi) as [e He]. discriminate.
    + intros i c viewers Hin Hi.
      destruct (stored_lookup streamers fetches [] c)
        as [[Hnone _]|(j & kept & _ & _ & Hget)]; [|eauto].
      exfalso. eapply Hnone; eassumption.
    + intros Hnodup i c viewers Hin Hi.
      destruct (stored_lookup streamers fetches [] c)
        as [[Hnone _]|(j & kept & Hinj & Hj & Hget)].
      * exfalso. eapply Hnone; eassumption.
      * rewrite Hget. f_equal.
        assert (j = i) as ->.
        { eapply NoDup_nth_error; [exact Hnodup| |congruence].
          apply nth_error_Some. congruence. }
        assert (Hsame : Ret kept = Ret viewers).
        { eapply unique_by_position; [|exact Hinj|exact Hin].
          rewrite Hpos. apply (Permutation_NoDup (Permutation_sym Hperm)).
          apply seq_NoDup. }
        now injection Hsame.
  - intros completion Hcompletion.
    apply Permutation_sym, Permutation_length_2_inv in Hcompletion
      as [->| ->]; reflexivity.
Qed.

Lemma viewer_map_isolates_failures_ch2 :
  Permutation [1; 0]%nat (seq 0 (List.length ["ch1"; "ch2"]))
  /\ exists data,
       fst (fst (get_viewer_map Fake.chatters [1; 0]%nat ["ch1"; "ch2"] tt))
       = Ret data
       /\ dict_get "ch2" data = None
       /\ dict_get "ch1" data = Some [PStr "a"; PStr "b"; PStr "c"].
Proof.
  assert (Hperm : Permutation [1; 0]%nat (seq 0 (List.length ["ch1"; "ch2"])))
    by apply perm_swap.
  split; [exact Hperm|].
  destruct (viewer_map_isolates_failures Fake.chatters [1; 0]%nat
              ["ch1"; "ch2"] tt Hperm)
    as [(data & Hret & _ & Habsent & _ & Hkept) _].
  exists data. split; [exact Hret|]. split.
  - apply Habsent. intros i o Hin Hi.
    destruct Hin as [Hin|[Hin|[]]]; injection Hin as <- <-.
    + eauto.
    + discriminate Hi.
  - apply (Hkept ltac:(repeat constructor; simpl; intuition discriminate)
             0%nat).
    + right. left. reflexivity.
    + reflexivity.
Defined.

(** A channel named twice is fetched twice; when one of the two fetches
    raises and the other returns, the channel keeps the entry of the one that
    returned. *)
Example channel_named_twice :
  viewer_fetches Fake.first_fails [1; 0]%nat ["ch1"; "ch1"] 0%nat
  = [(1%nat, Raise (ClientError "timeout"));
     (0%nat, Ret [PStr "a"; PStr "b"; PStr "c"])]
  /\ fst (fst (get_viewer_map Fake.first_fails [1; 0]%nat ["ch1"; "ch1"] 0%nat))
     = Ret [("ch1", [PStr "a"; PStr "b"; PStr "c"])].
Proof. split; reflexivity. Qed.

(** C10. The keys of the dict [get_viewer_map] returns are elements of
    [streamers], as given: the channel is lowercased in the URL only.  For
    an empty list the dict is empty and no request is made. *)
Theorem viewer_map_keys {St : Type} (http_get : request -> St -> reply * St)
    (order : list nat) (streamers : list string) (s : St) :
  (exists data,
      fst (fst (get_viewer_map http_get order streamers s)) = Ret data
      /\ Forall (fun key => In key streamers) (dict_keys data))
  /\ get_viewer_map http_get order [] s = (Ret [], s, [])
  /\ get_viewer_map Fake.chatters [0%nat] ["ChannelX"] tt
     = (Ret [("ChannelX", [PStr "z"])], tt,
        [(mk_request
            (Plain "http://tmi.twitch.tv/group/user/channelx/chatters") [],
          Body (PDict [("chatters", PDict [("viewers", PList [PStr "z"])])]))]).
Proof.
  split; [|split; [|reflexivity]].
  - destruct (get_viewer_map_run http_get streamers order s)
      as (s' & t & Hrun).
    eexists. split; [now rewrite Hrun|].
    apply Forall_forall. intros key Hkey.
    apply dict_keys_get in Hkey.
    destruct (stored_lookup streamers
                (viewer_fetches http_get order streamers s) [] key)
      as [[_ Hget]|(i & viewers & _ & Hi & _)].
    + rewrite Hget in Hkey. now contradiction Hkey.
    + eapply nth_error_In, Hi.
  - unfold get_viewer_map. simpl map. rewrite gather_nothing. reflexivity.
Qed.

(** * Further properties of the pagination *)

(** The logins [read_page] takes from a body are the [user_login] values of
    its rows. *)
Lemma row_logins (rows logins : list pyval) :
  map_outcome (fun element => subscript element "user_login") rows = Ret logins ->
  logins = map login_of rows.
Proof.
  revert logins. induction rows as [|r rest IH]; simpl; intros logins H.
  - now injection H as <-.
  - destruct r; simpl in H; try discriminate.
    simpl. destruct (dict_get "user_login" entries) as [login|];
      [|discriminate].
    simpl in H.
    destruct (map_outcome _ rest) as [others|e|]; simpl in H; try discriminate.
    injection H as <-. f_equal. now apply IH.
Qed.

Lemma user_logins_values (rows : pyval) (logins : list pyval) :
  user_logins rows = Ret logins ->
  logins = match rows with
           | PList items => map login_of items
           | _ => []
           end.
Proof.
  unfold user_logins. destruct rows; simpl; try discriminate.
  - destruct s as [|c rest]; simpl; [congruence|discriminate].
  - apply row_logins.
  - destruct entries as [|[k v] rest]; simpl; [congruence|discriminate].
Qed.

Lemma read_page_fields data page :
  read_page data = Ret page -> read_fields data = Ret page.
Proof.
  unfold read_page.
  destruct data as [| | | | |?|d]; simpl; try discriminate.
  destruct (dict_get "message" d) as [m|]; simpl; [|trivial].
  destruct (truthy m); [discriminate|trivial].
Qed.

Lemma read_page_logins data c logins :
  read_page data = Ret (c, logins) -> logins = body_logins (Body data).
Proof.
  intros H. apply read_page_fields in H. revert H. unfold read_fields.
  destruct data as [| | | | |?|d]; simpl; try discriminate.
  destruct (dict_get "pagination" d) as [pagination|]; simpl;
    [|discriminate].
  destruct (subscript pagination "cursor") as [c'|e|]; simpl;
    try discriminate.
  destruct (dict_get "data" d) as [rows|]; simpl; [|discriminate].
  destruct (user_logins rows) as [l|e|] eqn:Hrows; simpl; try discriminate.
  intros H. injection H as _ <-.
  apply user_logins_values in Hrows. destruct rows; exact Hrows.
Qed.

Section PaginationRuns.

Context {St : Type} (http_get : request -> St -> reply * St).

(** A reply that cannot be used is the last of the loop, and its exception
    is the outcome. *)
Lemma fetch_loop_abort fuel : forall headers count cursor result s out s' t,
  fetch_loop http_get fuel headers count cursor result s = (out, s', t) ->
  forall before rq rp after e,
    t = before ++ (rq, rp) :: after ->
    reply_error rp = Some e ->
    out = Raise e /\ after = [].
Proof.
  induction fuel as [|fuel IH];
    intros headers count cursor result s out s' t Hrun
           before rq rp after e Ht He.
  - simpl in Hrun. destruct (count =? 0)%Z; injection Hrun as _ _ <-;
      destruct before; discriminate.
  - destruct (Z.eq_dec count 0) as [->|Hc].
    + rewrite fetch_loop_done in Hrun. injection Hrun as _ _ <-.
      destruct before; discriminate.
    + rewrite fetch_loop_step in Hrun by assumption. cbv zeta in Hrun.
      pose proof (before_request_fuel count cursor) as Hbefore.
      destruct (before_request count cursor) as [[]|e9|];
        [| injection Hrun as _ _ <-; destruct before; discriminate | contradiction].
      destruct (http_get _ s) as [[data0|e0] s1].
      * destruct (read_page data0) as [[c logins]|e1|] eqn:Hread.
        -- destruct (fetch_loop http_get fuel headers _ c
                       (result ++ logins) s1) as [[o s2] t'] eqn:Hrest.
           injection Hrun as <- _ <-.
           destruct before as [|e2 before]; simpl in Ht.
           ++ injection Ht as _ <- _. simpl in He. rewrite Hread in He.
              discriminate.
           ++ injection Ht as _ Ht. eapply IH; eassumption.
        -- injection Hrun as <- _ <-.
           destruct before as [|e2 [|e3 before]]; simpl in Ht;
             try discriminate.
           injection Ht as _ <- <-. simpl in He. rewrite Hread in He.
           injection He as <-. split; reflexivity.
        -- exfalso. eapply read_page_fuel, Hread.
      * injection Hrun as <- _ <-.
        destruct before as [|e2 [|e3 before]]; simpl in Ht; try discriminate.
        injection Ht as _ <- <-. simpl in He. injection He as <-.
        split; reflexivity.
Qed.

(** What the outcome says of the trace: a returned list is made of the
    logins of the bodies, and an exception is the one of the last reply or
    one of building the next request. *)
Lemma fetch_loop_outcome fuel : forall headers count cursor result s out s' t,
  fetch_loop http_get fuel headers count cursor result s = (out, s', t) ->
  (forall found, out = Ret found ->
     Forall (fun ex => reply_error (snd ex) = None) t
     /\ found = result ++ List.concat (map (fun ex => body_logins (snd ex)) t))
  /\ (forall e, out = Raise e ->
        exists read,
          Forall (fun ex => reply_error (snd ex) = None) read
          /\ ((exists rq rp, t = read ++ [(rq, rp)] /\ reply_error rp = Some e)
              \/ (t = read /\ (e = ValueError \/ e = OverflowError)))).
Proof.
  induction fuel as [|fuel IH];
    intros headers count cursor result s out s' t Hrun.
  - simpl in Hrun. destruct (count =? 0)%Z; injection Hrun as <- _ <-.
    + split; [|discriminate]. intros found H. injection H as <-.
      split; [constructor|]. simpl. now rewrite app_nil_r.
    + split; discriminate.
  - destruct (Z.eq_dec count 0) as [->|Hc].
    + rewrite fetch_loop_done in Hrun. injection Hrun as <- _ <-.
      split; [|discriminate]. intros found H. injection H as <-.
      split; [constructor|]. simpl. now rewrite app_nil_r.
    + rewrite fetch_loop_step in Hrun by assumption. cbv zeta in Hrun.
      pose proof (before_request_fuel count cursor) as Hfuel.
      destruct (before_request count cursor) as [[]|e9|] eqn:Hbefore;
        [| |contradiction].
      * destruct (http_get _ s) as [[data|e0] s1].
        -- destruct (read_page data) as [[c logins]|e1|] eqn:Hread.
           ++ destruct (fetch_loop http_get fuel headers _ c
                          (result ++ logins) s1) as [[o s2] t'] eqn:Hrest.
              injection Hrun as <- _ <-.
              pose proof (read_page_logins _ _ _ Hread) as Hlogins.
              apply IH in Hrest as [Hret Hraise]. split.
              ** intros found Ho. destruct (Hret found Ho) as [Hall ->].
                 split.
                 --- constructor; [simpl; now rewrite Hread|exact Hall].
                 --- cbn [map List.concat snd]. rewrite <- Hlogins.
                     now rewrite app_assoc.
              ** intros e Ho.
                 destruct (Hraise e Ho) as (read & Hall & Hlast).
                 exists ((mk_request
                            (Helix_streams (Z.min count TWITCH_PAGE_SIZE) cursor)
                            headers, Body data) :: read).
                 split; [constructor; [simpl; now rewrite Hread|exact Hall]|].
                 destruct Hlast as [(rq & rp & -> & He)|[-> He]].
                 --- left. exists rq, rp. split; [reflexivity|exact He].
                 --- right. split; [reflexivity|exact He].
           ++ injection Hrun as <- _ <-. split; [discriminate|].
              intros e H. injection H as <-.
              exists []. split; [constructor|]. left.
              eexists _, _. split; [reflexivity|]. simpl. now rewrite Hread.
           ++ exfalso. eapply read_page_fuel, Hread.
        -- injection Hrun as <- _ <-. split; [discriminate|].
           intros e H. injection H as <-.
           exists []. split; [constructor|]. left.
           eexists _, _. split; reflexivity.
      * injection Hrun as <- _ <-. split; [discriminate|].
        intros e H. injection H as <-.
        exists []. split; [constructor|]. right.
        split; [reflexivity|]. eapply before_request_raises, Hbefore.
Qed.

(** Whatever the replies, the loop asks for a prefix of the expected
    batches, each between 1 and 100, always with the same headers; it asks
    for them all when it returns. *)
Lemma fetch_loop_asks fuel : forall headers count cursor result s out s' t,
  0 <= count ->
  (Z.to_nat count <= fuel)%nat ->
  fetch_loop http_get fuel headers count cursor result s = (out, s', t) ->
  map (fun ex => requested (fst ex)) t
  = map Some (firstn (List.length t) (expected_batches count))
  /\ (List.length t <= pages count)%nat
  /\ Forall (fun ex => exists batch, requested (fst ex) = Some batch
                                     /\ 1 <= batch <= 100) t
  /\ (forall found, out = Ret found -> List.length t = pages count).
Proof.
  induction fuel as [|fuel IH];
    intros headers count cursor result s out s' t Hpos Hfuel Hrun.
  - assert (count = 0) as -> by lia. simpl in Hrun.
    injection Hrun as <- _ <-. repeat split; auto.
  - destruct (Z.eq_dec count 0) as [->|Hc].
    + rewrite fetch_loop_done in Hrun. injection Hrun as <- _ <-.
      repeat split; auto.
    + rewrite fetch_loop_step in Hrun by assumption. cbv zeta in Hrun.
      pose proof (before_request_fuel count cursor) as Hbefore.
      destruct (before_request count cursor) as [[]|e9|];
        [| injection Hrun as <- _ <-;
          (split; [reflexivity|]; split; [simpl; lia|];
           split; [constructor|discriminate]) | contradiction].
      unfold TWITCH_PAGE_SIZE in Hrun.
      unfold expected_batches. rewrite pages_step by lia.
      cbn [batch_sizes]. cbv zeta.
      fold (expected_batches (count - Z.min count 100)).
      assert (Hbatch : 1 <= Z.min count 100 <= 100) by lia.
      destruct (http_get _ s) as [[data|e0] s1].
      * destruct (read_page data) as [[c logins]|e1|] eqn:Hread.
        -- destruct (fetch_loop http_get fuel headers _ c
                       (result ++ logins) s1) as [[o s2] t'] eqn:Hrest.
           injection Hrun as <- _ <-.
           apply IH in Hrest as (Hreq & Hlen & Hall & Hret); [|lia|lia].
           simpl. rewrite Hreq.
           split; [reflexivity|]. split; [lia|]. split.
           ++ constructor; [exists (Z.min count 100); split; [reflexivity|lia]|exact Hall].
           ++ intros found Ho. now rewrite (Hret found Ho).
        -- injection Hrun as <- _ <-. simpl.
           split; [reflexivity|]. split; [lia|]. split; [|discriminate].
           constructor; [exists (Z.min count 100); split; [reflexivity|lia]|constructor].
        -- exfalso. eapply read_page_fuel, Hread.
      * injection Hrun as <- _ <-. simpl.
        split; [reflexivity|]. split; [lia|]. split; [|discriminate].
        constructor; [exists (Z.min count 100); split; [reflexivity|lia]|constructor].
Qed.

Lemma fetch_loop_headers fuel : forall headers count cursor result s out s' t,
  fetch_loop http_get fuel headers count cursor result s = (out, s', t) ->
  Forall (fun ex => rq_headers (fst ex) = headers) t.
Proof.
  induction fuel as [|fuel IH];
    intros headers count cursor result s out s' t Hrun.
  - simpl in Hrun. destruct (count =? 0)%Z; injection Hrun as _ _ <-;
      constructor.
  - destruct (Z.eq_dec count 0) as [->|Hc].
    + rewrite fetch_loop_done in Hrun. injection Hrun as _ _ <-. constructor.
    + rewrite fetch_loop_step in Hrun by assumption. cbv zeta in Hrun.
      pose proof (before_request_fuel count cursor) as Hbefore.
      destruct (before_request count cursor) as [[]|e9|];
        [| injection Hrun as _ _ <-; constructor | contradiction].
      destruct (http_get _ s) as [[data|e0] s1].
      * destruct (read_page data) as [[c logins]|e1|] eqn:Hread.
        -- destruct (fetch_loop http_get fuel headers _ c
                       (result ++ logins) s1) as [[o s2] t'] eqn:Hrest.
           injection Hrun as _ _ <-. apply IH in Hrest.
           constructor; [reflexivity|exact Hrest].
        -- injection Hrun as _ _ <-. repeat constructor.
        -- injection Hrun as _ _ <-. repeat constructor.
      * injection Hrun as _ _ <-. repeat constructor.
Qed.

End PaginationRuns.

(** X1. A negative [count] that still has a decimal text costs one
    request: [min(count, 100)] is [count] itself, so the loop asks once for
    [first = count] with the empty cursor and stops, returning the
    [user_login] values of that reply or raising its exception. *)
Theorem negative_count_one_request {St : Type}
    (http_get : request -> St -> reply * St)
    (creds : credentials) (count : Z) (s : St) out s' t :
  - 10 ^ INT_MAX_STR_DIGITS < count < 0 ->
  get_top_streamers http_get creds count s = (out, s', t) ->
  exists rp,
    t = [(mk_request (Helix_streams count (PStr "")) (auth_headers creds), rp)]
    /\ out = match reply_error rp with
             | Some e => Raise e
             | None => Ret (body_logins rp)
             end.
Proof.
  intros Hneg Hrun. unfold get_top_streamers in Hrun.
  pose proof float_overflow_positive as Hfloat.
  destruct (Z.to_nat (Z.abs count)) as [|fuel] eqn:Hfuel; [lia|].
  rewrite fetch_loop_step in Hrun by lia. cbv zeta in Hrun.
  rewrite before_request_made in Hrun
    by (reflexivity || (unfold COUNT_LIMIT, TWITCH_PAGE_SIZE; lia)).
  unfold TWITCH_PAGE_SIZE in Hrun. rewrite Z.min_l in Hrun by lia.
  rewrite Z.sub_diag in Hrun. unfold auth_headers.
  destruct (http_get _ s) as [[data|e] s1].
  - pose proof (read_page_fuel data) as Hread.
    destruct (read_page data) as [[c logins]|e|] eqn:E; [| |contradiction].
    + rewrite fetch_loop_done in Hrun. injection Hrun as <- _ <-.
      eexists. split; [reflexivity|]. cbn [reply_error]. rewrite E.
      now rewrite (read_page_logins _ _ _ E).
    + injection Hrun as <- _ <-.
      eexists. split; [reflexivity|]. cbn [reply_error]. now rewrite E.
  - injection Hrun as <- _ <-. eexists. split; reflexivity.
Qed.

Lemma negative_count_one_request_minus_five :
  - 10 ^ INT_MAX_STR_DIGITS < -5 < 0
  /\ exists rp,
       snd negative_run
       = [(mk_request (Helix_streams (-5) (PStr "")) (auth_headers Fake.creds),
           rp)]
       /\ fst (fst negative_run) = Ret (body_logins rp).
Proof.
  assert (Hcount : - 10 ^ INT_MAX_STR_DIGITS < -5 < 0)
    by (split; reflexivity).
  split; [exact Hcount|].
  destruct (negative_count_one_request Fake.full_pages Fake.creds (-5) 0%nat
              (fst (fst negative_run)) (snd (fst negative_run))
              (snd negative_run)) as (rp & Ht & Hout).
  - exact Hcount.
  - vm_compute. reflexivity.
  - exists rp. split; [exact Ht|].
    assert (Hrp : reply_error rp = None).
    { assert (H : map snd (snd negative_run) = [rp]) by now rewrite Ht.
      vm_compute in H. injection H as <-. reflexivity. }
    now rewrite Hrp in Hout.
Defined.

(** X2. Whatever the server answers, [get_top_streamers] with a non-negative
    [count] never asks for more than 100 items or fewer than 1 in a request,
    never makes more than [ceil(count / 100)] requests, and the sizes it
    asks for are the first of the expected ones; a run that returns has made
    them all. *)
Theorem requests_bounded {St : Type} (http_get : request -> St -> reply * St)
    (creds : credentials) (count : Z) (s : St) out s' t :
  0 <= count ->
  get_top_streamers http_get creds count s = (out, s', t) ->
  map (fun ex => requested (fst ex)) t
  = map Some (firstn (List.length t) (expected_batches count))
  /\ (List.length t <= pages count)%nat
  /\ Forall (fun ex => exists batch, requested (fst ex) = Some batch
                                     /\ 1 <= batch <= 100) t
  /\ (forall found, out = Ret found -> List.length t = pages count).
Proof.
  intros Hpos Hrun. unfold get_top_streamers in Hrun.
  eapply fetch_loop_asks in Hrun; [exact Hrun|lia|lia].
Qed.

Lemma requests_bounded_failing :
  0 <= 250
  /\ map (fun ex => requested (fst ex)) (snd Fake.failing_run)
     = [Some 100; Some 100]
  /\ (List.length (snd Fake.failing_run) <= pages 250)%nat.
Proof.
  split; [lia|].
  destruct (requests_bounded Fake.second_page_fails Fake.creds 250 0%nat
              (fst (fst Fake.failing_run)) (snd (fst Fake.failing_run))
              (snd Fake.failing_run)) as (Hreq & Hlen & _ & _).
  - lia.
  - vm_compute. reflexivity.
  - split; [|exact Hlen]. rewrite Hreq. vm_compute. reflexivity.
Defined.

Lemma fetch_loop_streams_url {St : Type}
    (http_get : request -> St -> reply * St) fuel :
  forall headers count cursor result s out s' t,
    fetch_loop http_get fuel headers count cursor result s = (out, s', t) ->
    Forall (fun ex => requested (fst ex) <> None) t.
Proof.
  induction fuel as [|fuel IH];
    intros headers count cursor result s out s' t Hrun.
  - simpl in Hrun. destruct (count =? 0)%Z; injection Hrun as _ _ <-;
      constructor.
  - destruct (Z.eq_dec count 0) as [->|Hc].
    + rewrite fetch_loop_done in Hrun. injection Hrun as _ _ <-. constructor.
    + rewrite fetch_loop_step in Hrun by assumption. cbv zeta in Hrun.
      pose proof (before_request_fuel count cursor) as Hbefore.
      destruct (before_request count cursor) as [[]|e9|];
        [| injection Hrun as _ _ <-; constructor | contradiction].
      destruct (http_get _ s) as [[data|e0] s1].
      * destruct (read_page data) as [[c logins]|e1|].
        -- destruct (fetch_loop http_get fuel headers _ c _ s1)
             as [[o s2] t'] eqn:Hrest.
           injection Hrun as _ _ <-. apply IH in Hrest.
           constructor; [discriminate|exact Hrest].
        -- injection Hrun as _ _ <-. repeat constructor. discriminate.
        -- injection Hrun as _ _ <-. repeat constructor. discriminate.
      * injection Hrun as _ _ <-. repeat constructor. discriminate.
Qed.

(** X3. Every request of [get_top_streamers] carries the same two headers,
    [Client-ID] with the client id and [Authorization] with
    ["Bearer " + access token], and goes to the streams URL. *)
Theorem requests_carry_credentials {St : Type}
    (http_get : request -> St -> reply * St)
    (creds : credentials) (count : Z) (s : St) :
  Forall (fun ex =>
            rq_headers (fst ex)
            = [("Client-ID", client_id creds);
               ("Authorization", ("Bearer " ++ access_token creds)%string)]
            /\ requested (fst ex) <> None)
         (snd (get_top_streamers http_get creds count s)).
Proof.
  destruct (get_top_streamers http_get creds count s) as [[out s'] t] eqn:Hrun.
  simpl. unfold get_top_streamers in Hrun.
  pose proof (fetch_loop_headers _ _ _ _ _ _ _ _ _ _ Hrun) as Hhead.
  pose proof (fetch_loop_streams_url _ _ _ _ _ _ _ _ _ _ Hrun) as Hurl.
  rewrite Forall_forall in *. intros ex Hex. split; auto.
Qed.

(** X4. The list [get_top_streamers] returns is made of the [user_login]
    values of the rows of the pages, row after row and page after page in
    the order of the requests, with nothing removed: a login served on two
    pages is there twice. *)
Theorem result_is_pages_in_order {St : Type}
    (http_get : request -> St -> reply * St)
    (creds : credentials) (count : Z) (s : St) s' t found :
  get_top_streamers http_get creds count s = (Ret found, s', t) ->
  found = List.concat (map (fun ex => body_logins (snd ex)) t)
  /\ Forall (fun ex => reply_error (snd ex) = None) t.
Proof.
  intros Hrun. unfold get_top_streamers in Hrun.
  apply fetch_loop_outcome in Hrun as [Hret _].
  destruct (Hret found eq_refl) as [Hall ->]. split; [reflexivity|exact Hall].
Qed.

Lemma result_is_pages_in_order_border :
  exists found,
    fst (fst border_run) = Ret found
    /\ found = map numbered_login (seq 0 100 ++ [99; 100]%nat).
Proof.
  exists (map numbered_login (seq 0 100 ++ [99; 100]%nat)).
  split; [vm_compute; reflexivity|].
  rewrite (proj1 (result_is_pages_in_order border_pages Fake.creds 102 0%nat
                    (snd (fst border_run)) (snd border_run)
                    (map numbered_login (seq 0 100 ++ [99; 100]%nat))
                    ltac:(vm_compute; reflexivity))).
  vm_compute. reflexivity.
Defined.

(** X5. A reply that cannot be used, because the request or the decoding
    failed, because the body has a truthy [message], or because reading the
    body raises, ends the run: no request follows it and its exception is
    what [get_top_streamers] raises, whatever was fetched before. *)
Theorem unusable_reply_ends_run {St : Type}
    (http_get : request -> St -> reply * St)
    (creds : credentials) (count : Z) (s : St) out s' t before rq rp after e :
  get_top_streamers http_get creds count s = (out, s', t) ->
  t = before ++ (rq, rp) :: after ->
  reply_error rp = Some e ->
  out = Raise e /\ after = [].
Proof.
  intros Hrun Ht He. unfold get_top_streamers in Hrun.
  eapply fetch_loop_abort; eassumption.
Qed.

Lemma unusable_reply_ends_run_end_of_listing :
  snd end_of_listing_run
  = [] ++ (fst (Fake.nth_exchange 0 (snd end_of_listing_run)), Body last_page)
          :: []
  /\ reply_error (Body last_page) = Some (KeyError "cursor")
  /\ fst (fst end_of_listing_run) = Raise (KeyError "cursor").
Proof.
  assert (Ht : snd end_of_listing_run
               = [] ++ (fst (Fake.nth_exchange 0 (snd end_of_listing_run)),
                        Body last_page) :: [])
    by (vm_compute; reflexivity).
  split; [exact Ht|]. split; [reflexivity|].
  refine (proj1 (unusable_reply_ends_run end_of_listing Fake.creds 1 tt
                   (fst (fst end_of_listing_run))
                   (snd (fst end_of_listing_run)) (snd end_of_listing_run)
                   _ _ _ _ _ _ Ht _)).
  - vm_compute. reflexivity.
  - reflexivity.
Defined.

(** X6. When [get_top_streamers] raises, every reply but the last was read
    without an exception, and the exception is either the one of the last
    reply, or a [ValueError] or [OverflowError] of building the next
    request (a number without text, a debug message that overflows), all
    replies so far having been read. *)
Theorem raise_comes_from_last_reply {St : Type}
    (http_get : request -> St -> reply * St)
    (creds : credentials) (count : Z) (s : St) s' t e :
  get_top_streamers http_get creds count s = (Raise e, s', t) ->
  exists read,
    Forall (fun ex => reply_error (snd ex) = None) read
    /\ ((exists rq rp, t = read ++ [(rq, rp)] /\ reply_error rp = Some e)
        \/ (t = read /\ (e = ValueError \/ e = OverflowError))).
Proof.
  intros Hrun. unfold get_top_streamers in Hrun.
  apply fetch_loop_outcome in Hrun as [_ Hraise]. apply Hraise. reflexivity.
Qed.

Lemma raise_comes_from_last_reply_second_page :
  exists read,
    Forall (fun ex => reply_error (snd ex) = None) read
    /\ ((exists rq rp,
           snd Fake.failing_run = read ++ [(rq, rp)]
           /\ reply_error rp = Some (Exception (PStr "invalid token")))
        \/ (snd Fake.failing_run = read
            /\ (Exception (PStr "invalid token") = ValueError
                \/ Exception (PStr "invalid token") = OverflowError))).
Proof.
  apply (raise_comes_from_last_reply Fake.second_page_fails Fake.creds 250
           0%nat (snd (fst Fake.failing_run))).
  vm_compute. reflexivity.
Defined.

(** X7. The cursor is read on every page, the last one included: a body with
    no truthy [message] whose [pagination] is a dict without [cursor] makes
    [get_top_streamers] raise [KeyError('cursor')], with no further request
    and no list returned, even when its rows would have completed the
    count. *)
Theorem missing_cursor_fails {St : Type}
    (http_get : request -> St -> reply * St)
    (creds : credentials) (count : Z) (s : St) out s' t before rq d p after :
  get_top_streamers http_get creds count s = (out, s', t) ->
  t = before ++ (rq, Body (PDict d)) :: after ->
  (forall m, dict_get "message" d = Some m -> truthy m = false) ->
  dict_get "pagination" d = Some (PDict p) ->
  dict_get "cursor" p = None ->
  out = Raise (KeyError "cursor") /\ after = [].
Proof.
  intros Hrun Ht Hmsg Hpag Hcur. unfold get_top_streamers in Hrun.
  eapply fetch_loop_abort; [exact Hrun|exact Ht|].
  unfold reply_error, read_page. simpl py_get.
  destruct (dict_get "message" d) as [m|] eqn:E; simpl.
  - rewrite (Hmsg m eq_refl). simpl. rewrite Hpag. simpl. now rewrite Hcur.
  - rewrite Hpag. simpl. now rewrite Hcur.
Qed.

Lemma missing_cursor_fails_single_page :
  fst (fst end_of_listing_run) = Raise (KeyError "cursor")
  /\ List.length (snd end_of_listing_run) = 1%nat.
Proof.
  split; [|reflexivity].
  refine (proj1 (missing_cursor_fails end_of_listing Fake.creds 1 tt
                   (fst (fst end_of_listing_run))
                   (snd (fst end_of_listing_run)) (snd end_of_listing_run)
                   [] (fst (Fake.nth_exchange 0 (snd end_of_listing_run)))
                   [("data", PList [Fake.streamer_row "a"]);
                    ("pagination", PDict [])] [] [] _ _ _ _ _)).
  - vm_compute. reflexivity.
  - vm_compute. reflexivity.
  - intros m H. discriminate H.
  - reflexivity.
  - reflexivity.
Defined.

(** X13. A [count] out of range fails before any request: from
    [COUNT_LIMIT] on (100 * (2^1024 - 2^970) + 100, about 1.8e310) the debug
    message of the first turn raises [OverflowError], and a negative
    [count] of more than 4300 digits raises [ValueError] when the URL is
    built; the session is not touched. *)
Theorem count_out_of_range {St : Type}
    (http_get : request -> St -> reply * St)
    (creds : credentials) (count : Z) (s : St) :
  (COUNT_LIMIT <= count ->
   get_top_streamers http_get creds count s = (Raise OverflowError, s, []))
  /\ (count <= - 10 ^ INT_MAX_STR_DIGITS ->
      get_top_streamers http_get creds count s = (Raise ValueError, s, [])).
Proof.
  split; [apply top_streamers_overflow|].
  intros Hcount. pose proof hundred_has_text as Hhundred.
  unfold get_top_streamers.
  destruct (Z.to_nat (Z.abs count)) as [|fuel] eqn:Hfuel; [lia|].
  rewrite fetch_loop_step by lia. cbv zeta.
  now rewrite before_request_no_text.
Qed.

Lemma count_out_of_range_both :
  COUNT_LIMIT <= 10 ^ 311
  /\ get_top_streamers Fake.full_pages Fake.creds (10 ^ 311) 0%nat
     = (Raise OverflowError, 0%nat, [])
  /\ - 10 ^ 4300 <= - 10 ^ INT_MAX_STR_DIGITS
  /\ get_top_streamers Fake.full_pages Fake.creds (- 10 ^ 4300) 0%nat
     = (Raise ValueError, 0%nat, []).
Proof.
  assert (Hhuge : COUNT_LIMIT <= 10 ^ 311) by (vm_compute; discriminate).
  assert (Hlong : - 10 ^ 4300 <= - 10 ^ INT_MAX_STR_DIGITS)
    by apply Z.le_refl.
  split; [exact Hhuge|]. split.
  - exact (proj1 (count_out_of_range Fake.full_pages Fake.creds (10 ^ 311)
                    0%nat) Hhuge).
  - split; [exact Hlong|].
    exact (proj2 (count_out_of_range Fake.full_pages Fake.creds (- 10 ^ 4300)
                    0%nat) Hlong).
Defined.

(** * Further properties of the viewer fetches *)

Lemma lower_char_idempotent c : lower_char (lower_char c) = lower_char c.
Proof.
  destruct c as [[] [] [] [] [] [] [] []]; vm_compute; reflexivity.
Qed.

Lemma lower_idempotent s : lower (lower s) = lower s.
Proof.
  induction s as [|c rest IH]; simpl; [reflexivity|].
  now rewrite lower_char_idempotent, IH.
Qed.

(** X8. [get_current_viewers] does not tell apart channel names that differ
    by case only: two names with the same lowercase form give the same
    request and, from the same session state, the same result; lowercasing
    a name beforehand changes nothing. *)
Theorem viewers_case_insensitive {St : Type}
    (http_get : request -> St -> reply * St) (a b : string) (s : St) :
  lower a = lower b ->
  get_current_viewers http_get a s = get_current_viewers http_get b s
  /\ get_current_viewers http_get (lower a) s = get_current_viewers http_get a s.
Proof.
  intros Hsame. split.
  - rewrite !get_current_viewers_run. cbv zeta. unfold chatters_url.
    now rewrite Hsame.
  - rewrite !get_current_viewers_run. cbv zeta. unfold chatters_url.
    now rewrite lower_idempotent.
Qed.

Lemma viewers_case_insensitive_channelx :
  lower "ChannelX" = lower "channelx"
  /\ get_current_viewers Fake.chatters "ChannelX" tt
     = get_current_viewers Fake.chatters "channelx" tt.
Proof.
  split; [reflexivity|].
  refine (proj1 (viewers_case_insensitive Fake.chatters "ChannelX" "channelx"
                   tt _)).
  reflexivity.
Defined.

Lemma py_iter_TypeError v e : py_iter v = Raise e -> e = TypeError.
Proof. destruct v; simpl; congruence. Qed.

Lemma not_iterable_raises (groups : list pyval) v :
  In v groups -> is_iterable v = false ->
  map_outcome py_iter groups = Raise TypeError.
Proof.
  induction groups as [|g rest IH]; simpl; intros Hin Hv; [contradiction|].
  destruct (py_iter g) as [items|e|] eqn:Hg; simpl.
  - destruct Hin as [->|Hin].
    + destruct v; simpl in Hv, Hg; discriminate.
    + now rewrite (IH Hin Hv).
  - now rewrite (py_iter_TypeError _ _ Hg).
  - exfalso. eapply py_iter_fuel, Hg.
Qed.

(** X9. What [get_current_viewers] raises on a body of the wrong shape: a
    body that is not a dict gives [TypeError], a dict without [chatters]
    gives [KeyError('chatters')], a [chatters] that is not a dict gives
    [AttributeError] (it has no [values]), and a role group that cannot be
    iterated (null, a number, a boolean) gives [TypeError]; no list is
    returned in any of these cases. *)
Theorem viewers_malformed_body {St : Type}
    (http_get : request -> St -> reply * St) (channel : string) (s s1 : St)
    (data : pyval) :
  http_get (mk_request (Plain (chatters_url channel)) []) s = (Body data, s1) ->
  (is_dict data = false ->
   fst (fst (get_current_viewers http_get channel s)) = Raise TypeError)
  /\ (forall d, data = PDict d -> dict_get "chatters" d = None ->
        fst (fst (get_current_viewers http_get channel s))
        = Raise (KeyError "chatters"))
  /\ (forall d v, data = PDict d -> dict_get "chatters" d = Some v ->
        is_dict v = false ->
        fst (fst (get_current_viewers http_get channel s))
        = Raise (AttributeError "values"))
  /\ (forall d groups role v,
        data = PDict d -> dict_get "chatters" d = Some (PDict groups) ->
        In (role, v) groups -> is_iterable v = false ->
        fst (fst (get_current_viewers http_get channel s)) = Raise TypeError).
Proof.
  intros Hget. rewrite get_current_viewers_run. cbv zeta. rewrite Hget.
  simpl. repeat split.
  - intros Hd. destruct data; simpl in Hd; try discriminate; reflexivity.
  - intros d -> Hc. simpl. now rewrite Hc.
  - intros d v -> Hc Hv. simpl. rewrite Hc. simpl.
    destruct v; simpl in Hv; try discriminate; reflexivity.
  - intros d groups role v -> Hc Hin Hv. simpl. rewrite Hc. simpl.
    unfold flatten.
    rewrite (not_iterable_raises (dict_values groups) v); [reflexivity| |exact Hv].
    unfold dict_values. apply (in_map snd) in Hin. exact Hin.
Qed.

Lemma viewers_malformed_body_null_group :
  fst (fst (get_current_viewers
              (Fake.always (PDict [("chatters",
                                    PDict [("viewers", PList [PStr "a"]);
                                           ("vips", PNone)])]))
              "ch1" tt))
  = Raise TypeError
  /\ fst (fst (get_current_viewers (Fake.always (PList [])) "ch1" tt))
     = Raise TypeError.
Proof.
  split.
  - refine (proj2 (proj2 (proj2
              (viewers_malformed_body
                 (Fake.always (PDict [("chatters",
                                       PDict [("viewers", PList [PStr "a"]);
                                              ("vips", PNone)])]))
                 "ch1" tt tt _ eq_refl)))
              _ _ "vips" PNone eq_refl eq_refl _ eq_refl).
    right. left. reflexivity.
  - refine (proj1 (viewers_malformed_body (Fake.always (PList [])) "ch1" tt tt
                     _ eq_refl) eq_refl).
Defined.

(** * Further properties of the viewer map *)

Section ViewerMapRuns.

Context {St : Type} (http_get : request -> St -> reply * St).

Lemma get_current_viewers_request channel s :
  map fst (snd (get_current_viewers http_get channel s))
  = [mk_request (Plain (chatters_url channel)) []].
Proof.
  rewrite get_current_viewers_run. cbv zeta.
  destruct (http_get _ s) as [[data|e] s1]; reflexivity.
Qed.

(** The requests of the gathering: one for each task run, in the order of
    completion. *)
Lemma gather_viewers_requests streamers order : forall s data,
  map fst (snd (gather true (map (add_viewers_task http_get) streamers) order
                  (s, data)))
  = map (fun channel => mk_request (Plain (chatters_url channel)) [])
        (picked streamers order).
Proof.
  induction order as [|i rest IH]; intros s data; [reflexivity|].
  unfold picked. cbn [flat_map]. fold (picked streamers rest).
  destruct (nth_error streamers i) as [channel|] eqn:Hi.
  - rewrite (gather_run _ _ _ _ (add_viewers_task http_get channel))
      by (rewrite nth_error_map, Hi; reflexivity).
    rewrite add_viewers_task_run.
    pose proof (get_current_viewers_fuel http_get channel s) as Hfuel.
    pose proof (get_current_viewers_request channel s) as Hrq.
    destruct (get_current_viewers http_get channel s) as [[o s1] t1].
    simpl in Hfuel, Hrq.
    destruct o as [viewers|e|]; [| |contradiction].
    + specialize (IH s1 (dict_set channel viewers data)).
      destruct (gather true _ rest (s1, dict_set channel viewers data))
        as [[r s2] t2].
      cbn [snd] in IH |- *. unfold trace, exchange in *.
      rewrite map_app, Hrq, IH. reflexivity.
    + specialize (IH s1 data).
      destruct (gather true _ rest (s1, data)) as [[r s2] t2].
      cbn [snd] in IH |- *. unfold trace, exchange in *.
      rewrite map_app, Hrq, IH. reflexivity.
  - rewrite gather_skip by (rewrite nth_error_map, Hi; reflexivity).
    apply IH.
Qed.

Lemma get_viewer_map_requests streamers order s :
  map fst (snd (get_viewer_map http_get order streamers s))
  = map (fun channel => mk_request (Plain (chatters_url channel)) [])
        (picked streamers order).
Proof.
  pose proof (gather_viewers_requests streamers order s []) as Hreq.
  destruct (gather_viewers http_get streamers order s [])
    as (results & s' & t & Hrun).
  unfold get_viewer_map. unfold dict in *. rewrite Hrun in Hreq |- *.
  exact Hreq.
Qed.

End ViewerMapRuns.

Lemma picked_from (before streamers : list string) :
  picked (before ++ streamers)
         (seq (List.length before) (List.length streamers))
  = streamers.
Proof.
  revert before. induction streamers as [|c rest IH]; intros before;
    [reflexivity|].
  simpl. rewrite nth_error_app2, Nat.sub_diag by lia. simpl. f_equal.
  specialize (IH (before ++ [c])).
  rewrite <- app_assoc, length_app in IH. simpl in IH.
  rewrite Nat.add_1_r in IH. exact IH.
Qed.

Lemma picked_all (streamers : list string) (order : list nat) :
  Permutation order (seq 0 (List.length streamers)) ->
  Permutation (picked streamers order) streamers.
Proof.
  intros Hperm. rewrite <- (picked_from [] streamers) at 2.
  apply Permutation_flat_map, Hperm.
Qed.

Lemma dict_set_fresh {V : Type} (k : string) (v : V) (d : dict V) :
  ~ In k (dict_keys d) -> dict_set k v d = d ++ [(k, v)].
Proof.
  induction d as [|[k' v'] rest IH]; simpl; intros Hfresh; [reflexivity|].
  destruct (String.eqb_spec k' k) as [->|Hne]; [tauto|].
  f_equal. apply IH. tauto.
Qed.

Lemma entry_keys streamers (fetches : list (nat * outcome (list pyval))) c :
  In c (dict_keys (flat_map (entry_of streamers) fetches)) ->
  exists i, In i (map fst fetches) /\ nth_error streamers i = Some c.
Proof.
  unfold dict_keys. intros Hin.
  apply in_map_iff in Hin as ([c' v] & Hc & Hin). simpl in Hc. subst c'.
  apply in_flat_map in Hin as ([i o] & Hfetch & Hentry).
  exists i. split; [apply (in_map fst) in Hfetch; exact Hfetch|].
  unfold entry_of in Hentry. destruct o as [viewers|e|]; try contradiction.
  destruct (nth_error streamers i) as [c'|]; [|contradiction].
  destruct Hentry as [Hentry|[]]. congruence.
Qed.

(** With channels and positions all distinct, each fetch that returns adds
    its entry at the end of the dict. *)
Lemma stored_in_order streamers (fetches : list (nat * outcome (list pyval))) :
  NoDup streamers ->
  NoDup (map fst fetches) ->
  fold_left (stored streamers) fetches [] = flat_map (entry_of streamers) fetches.
Proof.
  intros Hstreamers.
  induction fetches as [|[i o] rest IH] using rev_ind; intros Hpos;
    [reflexivity|].
  rewrite map_app in Hpos. simpl in Hpos.
  apply NoDup_remove in Hpos as [Hrest Hfresh]. rewrite app_nil_r in *.
  rewrite fold_left_app, flat_map_app, (IH Hrest). simpl.
  destruct o as [viewers|e|]; simpl; try now rewrite app_nil_r.
  destruct (nth_error streamers i) as [c|] eqn:Hi; simpl;
    [|now rewrite app_nil_r].
  apply dict_set_fresh. intros Hin.
  apply entry_keys in Hin as (j & Hj & Hjc).
  assert (j = i) as ->.
  { eapply NoDup_nth_error; [exact Hstreamers| |congruence].
    apply nth_error_Some. congruence. }
  contradiction.
Qed.

(** X10. [get_viewer_map] makes one request for each element of
    [streamers], repeated names included, each to the chatters URL of the
    lowercased name and without headers, whether the other fetches fail or
    not: the requests of a run are those of the list, up to their order. *)
Theorem viewer_map_requests {St : Type}
    (http_get : request -> St -> reply * St)
    (order : list nat) (streamers : list string) (s : St) :
  Permutation order (seq 0 (List.length streamers)) ->
  let t := snd (get_viewer_map http_get order streamers s) in
  Permutation (map fst t)
    (map (fun channel => mk_request (Plain (chatters_url channel)) [])
         streamers)
  /\ List.length t = List.length streamers.
Proof.
  intros Hperm t. pose proof (picked_all streamers order Hperm) as Hpicked.
  pose proof (get_viewer_map_requests http_get streamers order s) as Hreq.
  fold t in Hreq. split.
  - rewrite Hreq. apply Permutation_map, Hpicked.
  - apply (f_equal (@List.length _)) in Hreq. rewrite !length_map in Hreq.
    transitivity (List.length (picked streamers order));
      [exact Hreq | apply Permutation_length, Hpicked].
Qed.

Lemma viewer_map_requests_ch2_fails :
  Permutation [1; 0]%nat (seq 0 (List.length ["ch1"; "ch2"]))
  /\ Permutation
       (map fst (snd (get_viewer_map Fake.chatters [1; 0]%nat
                        ["ch1"; "ch2"] tt)))
       [mk_request (Plain "http://tmi.twitch.tv/group/user/ch1/chatters") [];
        mk_request (Plain "http://tmi.twitch.tv/group/user/ch2/chatters") []]
  /\ List.length (snd (get_viewer_map Fake.chatters [1; 0]%nat
                         ["ch1"; "ch2"] tt)) = 2%nat.
Proof.
  assert (Hperm : Permutation [1; 0]%nat (seq 0 (List.length ["ch1"; "ch2"])))
    by apply perm_swap.
  split; [exact Hperm|].
  exact (viewer_map_requests Fake.chatters [1; 0]%nat ["ch1"; "ch2"] tt Hperm).
Defined.

(** X11. When [streamers] names each channel once, the dict
    [get_viewer_map] returns is exactly the entries of the fetches that
    returned, in the order in which they completed: its iteration order is
    the completion order, not the order of [streamers]. *)
Theorem viewer_map_in_completion_order {St : Type}
    (http_get : request -> St -> reply * St)
    (order : list nat) (streamers : list string) (s : St) :
  NoDup streamers ->
  Permutation order (seq 0 (List.length streamers)) ->
  fst (fst (get_viewer_map http_get order streamers s))
  = Ret (flat_map (entry_of streamers)
           (viewer_fetches http_get order streamers s)).
Proof.
  intros Hnodup Hperm.
  destruct (get_viewer_map_run http_get streamers order s) as (s' & t & ->).
  simpl. f_equal. apply stored_in_order; [exact Hnodup|].
  rewrite viewer_fetches_positions.
  - apply (Permutation_NoDup (Permutation_sym Hperm)), seq_NoDup.
  - intros i Hi. apply (Permutation_in _ Hperm), in_seq in Hi. lia.
Qed.

Lemma viewer_map_in_completion_order_swapped :
  NoDup ["ch1"; "ChannelX"]
  /\ Permutation [1; 0]%nat (seq 0 (List.length ["ch1"; "ChannelX"]))
  /\ fst (fst (get_viewer_map Fake.chatters [1; 0]%nat ["ch1"; "ChannelX"] tt))
     = Ret [("ChannelX", [PStr "z"]);
            ("ch1", [PStr "a"; PStr "b"; PStr "c"])].
Proof.
  assert (Hnodup : NoDup ["ch1"; "ChannelX"])
    by (repeat constructor; simpl; intuition discriminate).
  assert (Hperm : Permutation [1; 0]%nat
                    (seq 0 (List.length ["ch1"; "ChannelX"])))
    by apply perm_swap.
  split; [exact Hnodup|]. split; [exact Hperm|].
  exact (viewer_map_in_completion_order Fake.chatters [1; 0]%nat
           ["ch1"; "ChannelX"] tt Hnodup Hperm).
Defined.

(** X12. When a channel is named more than once, each fetch that returns
    overwrites its entry: the dict holds for the channel the viewers of the
    fetch that returned last. *)
Theorem last_returned_fetch_wins {St : Type}
    (http_get : request -> St -> reply * St)
    (order : list nat) (streamers : list string) (s : St)
    earlier later i c viewers :
  viewer_fetches http_get order streamers s
  = earlier ++ (i, Ret viewers) :: later ->
  nth_error streamers i = Some c ->
  (forall j others, In (j, Ret others) later ->
                    nth_error streamers j <> Some c) ->
  exists data,
    fst (fst (get_viewer_map http_get order streamers s)) = Ret data
    /\ dict_get c data = Some viewers.
Proof.
  intros Hfetches Hi Hlater.
  destruct (get_viewer_map_run http_get streamers order s) as (s' & t & ->).
  eexists. split; [reflexivity|].
  rewrite Hfetches, fold_left_app. cbn [fold_left].
  destruct (stored_lookup streamers later
              (stored streamers (fold_left (stored streamers) earlier [])
                 (i, Ret viewers)) c)
    as [[_ Hget]|(j & others & Hin & Hj & _)].
  - rewrite Hget. simpl. rewrite Hi. apply dict_get_set_same.
  - exfalso. eapply Hlater; eassumption.
Qed.

Lemma last_returned_fetch_wins_numbered :
  viewer_fetches numbered [1; 0]%nat ["ch1"; "ch1"] 0%nat
  = [(1%nat, Ret [PInt 0])] ++ (0%nat, Ret [PInt 1]) :: []
  /\ exists data,
       fst (fst (get_viewer_map numbered [1; 0]%nat ["ch1"; "ch1"] 0%nat))
       = Ret data
       /\ dict_get "ch1" data = Some [PInt 1].
Proof.
  split; [reflexivity|].
  apply (last_returned_fetch_wins numbered [1; 0]%nat ["ch1"; "ch1"] 0%nat
           [(1%nat, Ret [PInt 0])] [] 0%nat).
  - reflexivity.
  - reflexivity.
  - intros j others [].
Defined.
